(** * Redaction pipeline: a shallow embedding of [func_to_import.py] and
      [process_to_upload.py], with the properties of its specification.

    Python [str] values are sequences of Unicode code points and are
    modelled as [list N].  The external collaborators (PyPDF2, PyMuPDF,
    Tesseract, the zip reader) are oracles of a record [Lib]; the file
    system is a finite map from paths to file contents. *)

From Stdlib Require Import NArith ZArith QArith Lqa Bool List Ascii String Lia.
From Stdlib Require Import Sorting.Sorted Sorting.Permutation.
From stdpp Require Import base option list gmap.

Set Default Proof Using "Type".
Open Scope N_scope.

(* ================================================================== *)
(** ** Python strings *)
(* ================================================================== *)

Module PyStr.

Definition str := list N.

(** An ASCII literal as a Python string. *)
Definition py (s : string) : str := List.map N_of_ascii (list_ascii_of_string s).

Definition NL : N := 10.

Definition in_range (lo hi c : N) : bool := (lo <=? c) && (c <=? hi).

Definition str_eqb (a b : str) : bool := bool_decide (a = b).

(** [s.split(sep)] for a one-character separator. *)
Fixpoint split_on (sep : N) (s : str) : list str :=
  match s with
  | [] => [[]]
  | c :: s' =>
      if c =? sep then [] :: split_on sep s'
      else match split_on sep s' with
           | l :: ls => (c :: l) :: ls
           | [] => [[c]]
           end
  end.

(** [sep.join(parts)]. *)
Fixpoint join_with (sep : str) (parts : list str) : str :=
  match parts with
  | [] => []
  | [p] => p
  | p :: ps => p ++ sep ++ join_with sep ps
  end.

(** [s.startswith(p)]. *)
Fixpoint startswith (p s : str) : bool :=
  match p, s with
  | [], _ => true
  | a :: p', b :: s' => (a =? b) && startswith p' s'
  | _ :: _, [] => false
  end.

(** [s.replace(old, new)] for a non-empty [old]: left-to-right,
    non-overlapping.  [skip] counts the characters of a replaced
    occurrence still to be dropped. *)
Fixpoint replace_go (old new : str) (skip : nat) (s : str) : str :=
  match s with
  | [] => []
  | c :: s' =>
      match skip with
      | S k => replace_go old new k s'
      | O => if startswith old s
             then new ++ replace_go old new (Nat.pred (length old)) s'
             else c :: replace_go old new 0 s'
      end
  end.

Definition replace (old new s : str) : str := replace_go old new 0 s.

End PyStr.
Import PyStr.

(* ================================================================== *)
(** ** The fragments of [re] that the program uses *)
(* ================================================================== *)

Module PyRe.

(** The Unicode character database beyond ASCII: which code points are
    decimal digits ([\d]) and which are alphanumeric ([\w]).  The tables
    depend on the interpreter's Unicode version; they are only consulted
    for code points from 128 on. *)
Record Ucd := {
  unicode_decimal : N -> bool;
  unicode_alnum : N -> bool
}.

Definition ascii_digit (c : N) : bool := in_range 48 57 c.
Definition ascii_upper (c : N) : bool := in_range 65 90 c.
Definition ascii_lower (c : N) : bool := in_range 97 122 c.
Definition ascii_alnum (c : N) : bool := ascii_digit c || ascii_upper c || ascii_lower c.

(** [\s] on [str] patterns: [str.isspace] of the character. *)
Definition is_space (c : N) : bool :=
  in_range 9 13 c || in_range 28 32 c || (c =? 133) || (c =? 160)
  || (c =? 5760) || in_range 8192 8202 c || (c =? 8232) || (c =? 8233)
  || (c =? 8239) || (c =? 8287) || (c =? 12288).

Section WithUcd.
Variable U : Ucd.

(** [\d] on [str] patterns. *)
Definition is_digit (c : N) : bool :=
  if c <? 128 then ascii_digit c else unicode_decimal U c.

(** [\w] on [str] patterns: alphanumeric or underscore. *)
Definition is_word (c : N) : bool :=
  if c <? 128 then ascii_alnum c || (c =? 95) else unicode_alnum U c.

Definition word_opt (o : option N) : bool :=
  match o with Some c => is_word c | None => false end.

(** [\b] between the character before the position and the one at it. *)
Definition at_boundary (prev next : option N) : bool :=
  xorb (word_opt prev) (word_opt next).

(** *** [re.search(r"Copyright ©\s*\d{4}", line, re.IGNORECASE)] *)

(** A literal pattern character under IGNORECASE.  For an ASCII letter
    the matching characters are its two cases; [i] also matches U+0130
    and U+0131, [k] the Kelvin sign and [s] the long s. *)
Definition ci_char (p c : N) : bool :=
  if ascii_upper p || ascii_lower p then
    let lo := if ascii_upper p then p + 32 else p in
    (c =? lo) || (c =? lo - 32)
    || ((lo =? 105) && ((c =? 304) || (c =? 305)))
    || ((lo =? 107) && (c =? 8490))
    || ((lo =? 115) && (c =? 383))
  else c =? p.

(** The literal prefix [Copyright ©] ([©] is U+00A9). *)
Definition marker_literal : str := py "Copyright " ++ [169].

Fixpoint ci_prefix (p s : str) : option str :=
  match p, s with
  | [], _ => Some s
  | a :: p', c :: s' => if ci_char a c then ci_prefix p' s' else None
  | _ :: _, [] => None
  end.

Fixpoint digits (n : nat) (s : str) : bool :=
  match n, s with
  | O, _ => true
  | S k, c :: s' => is_digit c && digits k s'
  | S _, [] => false
  end.

(** [\s*\d{4}] with the backtracking of the greedy star. *)
Fixpoint spaces_then_year (s : str) : bool :=
  digits 4 s ||
  match s with
  | c :: s' => is_space c && spaces_then_year s'
  | [] => false
  end.

Definition marker_at (s : str) : bool :=
  match ci_prefix marker_literal s with
  | Some rest => spaces_then_year rest
  | None => false
  end.

Fixpoint marker_search (line : str) : bool :=
  marker_at line ||
  match line with
  | _ :: l' => marker_search l'
  | [] => false
  end.

(** *** [re.sub(r'\b[Uu][Pp][Tt][Oo][Dd][Aa][Tt][Ee]\b', '', line)] *)

(** The eight two-character classes of the pattern. *)
Definition uptodate_classes : list (N * N) :=
  [(85, 117); (80, 112); (84, 116); (79, 111);
   (68, 100); (65, 97); (84, 116); (69, 101)].

Definition in_class (cl : N * N) (c : N) : bool :=
  (c =? fst cl) || (c =? snd cl).

(** The classes matched from the head of [s]; [last] is the character
    before the position reached.  The result is the closing [\b]. *)
Fixpoint classes_then_boundary (cls : list (N * N)) (last : option N) (s : str) : bool :=
  match cls with
  | [] => at_boundary last (head s)
  | cl :: cls' =>
      match s with
      | c :: s' => in_class cl c && classes_then_boundary cls' (Some c) s'
      | [] => false
      end
  end.

(** The whole pattern matched at a position whose previous character is
    [prev]. *)
Definition token_here (prev : option N) (s : str) : bool :=
  at_boundary prev (head s) && classes_then_boundary uptodate_classes prev s.

(** The substitution: scan left to right; at a match drop its eight
    characters and go on after it, otherwise copy one character.
    [skip] counts the characters of a match still to be dropped. *)
Fixpoint sub_go (prev : option N) (skip : nat) (s : str) : str :=
  match s with
  | [] => []
  | c :: s' =>
      match skip with
      | S k => sub_go (Some c) k s'
      | O => if token_here prev s then sub_go (Some c) 7 s'
             else c :: sub_go (Some c) 0 s'
      end
  end.

Definition re_sub_uptodate (line : str) : str := sub_go None 0 line.

End WithUcd.

(** *** [re.escape] (Python 3.7 and later, which [re.Pattern] requires) *)

(** The characters of [_special_chars_map]. *)
Definition special_chars : str := py "()[]{}?*+-|^$\.&~# " ++ [9; 10; 13; 11; 12].

Definition is_special (c : N) : bool := bool_decide (c ∈ special_chars).

Fixpoint re_escape (s : str) : str :=
  match s with
  | [] => []
  | c :: s' => if is_special c then 92 :: c :: re_escape s' else c :: re_escape s'
  end.

(** The characters with a meaning of their own in a pattern. *)
Definition metachars : str := py ".^$*+?{}[]\|()".

Definition is_metachar (c : N) : bool := bool_decide (c ∈ metachars).

(** The text a pattern matches when it is made of literal characters
    only: a plain character stands for itself, a backslash before a
    character that is not an ASCII letter or digit stands for that
    character.  [None] when the pattern holds anything else. *)
Fixpoint literal_go (escaped : bool) (p : str) : option str :=
  match p with
  | [] => if escaped then None else Some []
  | c :: p' =>
      if escaped then
        if ascii_alnum c then None else cons c <$> literal_go false p'
      else if c =? 92 then literal_go true p'
      else if is_metachar c then None
      else cons c <$> literal_go false p'
  end.

Definition literal_of (p : str) : option str := literal_go false p.

(** The flag letters of an inline group [(?...)]. *)
Definition flag_letters : str := py "aiLmsux".

(** Whether [s] opens with an inline flag group that holds letter [f]. *)
Fixpoint flags_until_close (f : N) (seen : bool) (s : str) : bool :=
  match s with
  | [] => false
  | c :: s' =>
      if c =? 41 then seen
      else if bool_decide (c ∈ flag_letters)
           then flags_until_close f (seen || (c =? f)) s'
           else false
  end.

Definition has_inline_flag (f : N) (s : str) : bool :=
  match s with
  | a :: b :: rest => (a =? 40) && (b =? 63) && flags_until_close f false rest
  | _ => false
  end.

End PyRe.
Import PyRe.

(* ================================================================== *)
(** ** [remove_undesired_patterns] *)
(* ================================================================== *)

Module PostCleaner.

Section WithUcd.
Variable U : Ucd.

(** Loop state: the index [i] and [output_lines]. *)
Definition state : Type := nat * list str.

(** The test of line 61. *)
Definition pops (lines : list str) (i : nat) (out : list str) : bool :=
  match last out with
  | None => false
  | Some top =>
      (0 <? i)%nat &&
      ((i - 1 <? length lines)%nat &&
       match lines !! (i - 1)%nat with
       | Some prev_raw => str_eqb prev_raw top
       | None => false
       end)
  end.

(** One iteration of the [while] body at an index [i < len(lines)].
    The final [i += 1] is shared by both branches. *)
Definition step (lines : list str) (st : state) : state :=
  let '(i, out) := st in
  match lines !! i with
  | None => st
  | Some line =>
      if marker_search U line then
        let out' := if pops lines i out then removelast out else out in
        (i + 2 + 1, out')%nat
      else
        let cleaned_line := re_sub_uptodate U line in
        (i + 1, out ++ [cleaned_line])%nat
  end.

Fixpoint loop (fuel : nat) (lines : list str) (st : state) : state :=
  match fuel with
  | O => st
  | S f => if (fst st <? length lines)%nat then loop f lines (step lines st) else st
  end.

Definition remove_undesired_patterns (text : str) : str :=
  let lines := split_on NL text in
  join_with [NL] (snd (loop (length lines) lines (0%nat, []))).

End WithUcd.

(** The text of the specification's example. *)
Definition example_text : str :=
  py "A" ++ [NL] ++ py "Copyright " ++ [169] ++ py " 2020" ++ [NL] ++ py "B" ++ [NL] ++ py "C".

End PostCleaner.

(* ================================================================== *)
(** ** Pattern preparation of [redact_pdf_content] (lines 116-147) *)
(* ================================================================== *)

Module Patterns.

(** An element of [words_and_patterns_to_redact]: a [str], a compiled
    [re.Pattern] (its [pattern] and [flags]), or any other object. *)
Inductive Entry :=
| EStr (s : str)
| ERe (pattern : str) (flags : N)
| EOther (repr : str).

Definition IGNORECASE : N := 2.
Definition MULTILINE : N := 8.
Definition DOTALL : N := 16.
Definition UNICODE : N := 32.

Definition has_flag (flags f : N) : bool := negb (N.land flags f =? 0).

(** Lines 138-142. *)
Definition flag_str (current_flags : N) : str :=
  (if has_flag current_flags IGNORECASE then py "i" else [])
  ++ (if has_flag current_flags DOTALL then py "s" else [])
  ++ (if has_flag current_flags MULTILINE then py "m" else [])
  ++ (if has_flag current_flags UNICODE then py "u" else []).

(** Lines 144-147. *)
Definition embed_flags (current_flags : N) (pattern_string : str) : str :=
  match flag_str current_flags with
  | [] => pattern_string
  | fl => py "(?" ++ fl ++ py ")" ++ pattern_string
  end.

(** The flags computed for a compiled entry (lines 119, 128-131). *)
Definition pattern_flags (case_sensitive : bool) (flags : N) : N :=
  let current_flags := if case_sensitive then 0 else IGNORECASE in
  let current_flags :=
    if negb case_sensitive && negb (has_flag flags IGNORECASE)
    then N.lor current_flags IGNORECASE else current_flags in
  N.lor current_flags (N.land flags (N.lor (N.lor DOTALL MULTILINE) UNICODE)).

(** The body of the loop for one item; [None] is the [continue] of an
    invalid entry. *)
Definition search_pattern (case_sensitive : bool) (item : Entry) : option str :=
  match item with
  | EStr s =>
      let current_flags := if case_sensitive then 0 else IGNORECASE in
      Some (embed_flags current_flags (re_escape s))
  | ERe pattern flags =>
      Some (embed_flags (pattern_flags case_sensitive flags) pattern)
  | EOther _ => None
  end.

(** [REDACTION_PATTERNS].  A [str] pattern compiled without [re.ASCII]
    always carries [re.UNICODE]. *)
Definition months : str :=
  py "(?:Jan(?:uary)?|Feb(?:ruary)?|Mar(?:ch)?|Apr(?:il)?|May|Jun(?:e)?|Jul(?:y)?|Aug(?:ust)?|Sep(?:tember)?|Oct(?:ober)?|Nov(?:ember)?|Dec(?:ember)?)".

Definition REDACTION_PATTERNS : list Entry :=
  [ EStr (py "Ref");
    EStr (py "Use of UpToDate is subject to the Terms of Use");
    EStr (py "2025" ++ [169] ++ py " UpToDate, Inc. and its affiliates and/or licensors. All Rights Reserved");
    EStr (py "show table");
    EStr (py "Contributor Disclosures");
    EStr (py "For abbreviations, symbols, and age group definitions");
    EStr (py "Use of UpToDate is subject to the Terms of Us" ++ [34]);
    ERe (py "\b\([A-Za-z]+\s+\d{4}(?:[,;]\s*[A-Za-z]+\s+\d{4})*\)\b") (N.lor IGNORECASE UNICODE);
    ERe (py "AUTHORS:.*?(?:\n|$)") (N.lor IGNORECASE UNICODE);
    ERe (py "SECTION EDITOR:.*?(?:\n|$)") (N.lor IGNORECASE UNICODE);
    ERe (py "DEPUTY EDITOR:.*?(?:\n|$)") (N.lor IGNORECASE UNICODE);
    ERe (py "CONTRIBUTOR DISCLOSURES.*?(?:\n|$)") (N.lor IGNORECASE UNICODE);
    ERe (py "INTRODUCTION.*?(?:\n|$)") (N.lor IGNORECASE UNICODE);
    ERe (py "All topics are updated as new evidence becomes available and our peer review process is complete")
        (N.lor IGNORECASE UNICODE);
    ERe (py "This topic last updated: " ++ months ++ py "\s+\d{1,2}, \d{4}\.") (N.lor IGNORECASE UNICODE);
    ERe (py "Literature review current through:.*?(?:\n|$)") (N.lor IGNORECASE UNICODE);
    ERe (py "Topic \d+ Version \d+\.\d+") (N.lor IGNORECASE UNICODE);
    ERe (py "ACKNOWLEDGMENT.*?prior versions of this topic review\.")
        (N.lor (N.lor IGNORECASE DOTALL) UNICODE);
    ERe (py "UpToDate is a registered trademark of UpToDate, Inc. All rights reserved.")
        (N.lor IGNORECASE UNICODE) ].

Definition IS_CASE_SENSITIVE_PDF_REDACTION : bool := false.

End Patterns.
Import Patterns.

(* ================================================================== *)
(** ** Documents, files and effects *)
(* ================================================================== *)

Module Sys.

Definition path := str.

(** [fitz.Rect]: coordinates are finite floats, read as rationals. *)
Record Rect := mkRect { x0 : Q; y0 : Q; x1 : Q; y1 : Q }.

(** A redaction annotation: the rectangle, its replacement text and its
    fill colour. *)
Record Annot := mkAnnot { annot_rect : Rect; annot_text : str; annot_fill : N * N * N }.

(** A page: its size, its content (opaque) and the redactions applied
    to it so far. *)
Record Page := mkPage {
  page_width : Q;
  page_height : Q;
  page_content : N;
  page_redacted : list Annot
}.

Record Document := mkDoc { doc_pages : list Page; doc_metadata : list (str * str) }.

Inductive Content :=
| CPdf (d : Document)
| CText (s : str)
| COther (raw : list N).

(** A member of an archive; [None] when it cannot be read (encrypted,
    unsupported compression): [ZipFile.open] raises on it. *)
Record Member := mkMember { m_name : str; m_content : option Content }.

Inductive File :=
| Plain (c : Content)
| Zip (members : list Member).

(** The external libraries. *)
Record Lib := {
  (** [PyPDF2.PdfReader] and [PdfWriter] accept the document *)
  pypdf2_reads : Document -> bool;
  (** [fitz.open] accepts the document *)
  fitz_opens : Document -> bool;
  (** [Rect.intersects] *)
  rect_intersects : Rect -> Rect -> bool;
  (** [page.search_for]; [None] when it raises *)
  search_for : Page -> str -> option (list Rect);
  (** [page.get_pixmap(...).n]; [None] when rendering raises *)
  pixmap_n : Page -> option N;
  (** [Image.frombytes] then [pytesseract.image_to_string]; [None] when
      either raises *)
  image_to_string : Page -> option str
}.

(** What is printed. *)
Inductive Msg :=
| InfoAttemptRedaction (name : str)
| ErrInputNotFound (name : str)
| WarnInvalidPattern (item : Entry)
| ErrSearch (s_pattern : str) (page_num : nat)
| InfoRedacted (total_redactions : N)
| WarnCopiedOriginal
| ErrRedaction
| InfoMetadataRemoved
| ErrMetadata
| WarnChannels (n : N) (page_num : nat)
| ErrExtract
| ErrZipNotFound
| InfoExtracted (name : str)
| WarnNoPdf
| InfoProcessing (name : str)
| InfoStep (k : nat)
| ErrSkipMetadata (name : str)
| ErrSkipRedact (name : str)
| ErrSkipExtract (name : str)
| InfoSavedText (name : str)
| InfoAllProcessed
| ErrBadZip
| ErrUnexpected.

Inductive Event :=
| Print (m : Msg)
| Opened (p : path)
| Saved (p : path)
| Copied (src dst : path)
| TextWritten (p : path) (text : str).

Record World := mkWorld { fs : gmap path File; trace : list Event }.

Inductive Exc := BadZipFile | OtherError.

Inductive Res (A : Type) :=
| Ok (a : A)
| Raised (e : Exc).
Arguments Ok {A} a.
Arguments Raised {A} e.

(** Computations: a result or an exception, and the world after. *)
Definition M (A : Type) : Type := World -> Res A * World.

#[global] Instance M_ret : MRet M := fun A a w => (Ok a, w).
#[global] Instance M_bind : MBind M := fun A B k m w =>
  match m w with
  | (Ok a, w') => k a w'
  | (Raised e, w') => (Raised e, w')
  end.

Definition raise {A} (e : Exc) : M A := fun w => (Raised e, w).

(** [try: m except Exception: h]. *)
Definition try_except {A} (m : M A) (h : Exc -> M A) : M A := fun w =>
  match m w with
  | (Ok a, w') => (Ok a, w')
  | (Raised e, w') => h e w'
  end.

Definition emit (e : Event) : M unit := fun w =>
  (Ok tt, mkWorld (fs w) (trace w ++ [e])).

Definition print (m : Msg) : M unit := emit (Print m).

Definition os_path_exists (p : path) : M bool := fun w =>
  (Ok (bool_decide (is_Some (fs w !! p))), w).

Definition read_file (p : path) : M File := fun w =>
  match fs w !! p with
  | Some f => (Ok f, w)
  | None => (Raised OtherError, w)
  end.

Definition write_file (p : path) (f : File) : M unit := fun w =>
  (Ok tt, mkWorld (<[p := f]> (fs w)) (trace w)).

(** [os.replace(src, dst)]. *)
Definition os_replace (src dst : path) : M unit := fun w =>
  match fs w !! src with
  | Some f => (Ok tt, mkWorld (<[dst := f]> (delete src (fs w))) (trace w))
  | None => (Raised OtherError, w)
  end.

(** POSIX [os.path]. *)
Definition SLASH : N := 47.
Definition DOT : N := 46.

Fixpoint basename_go (cur : str) (p : str) : str :=
  match p with
  | [] => cur
  | c :: p' => if c =? SLASH then basename_go [] p' else basename_go (cur ++ [c]) p'
  end.

Definition os_path_basename (p : path) : str := basename_go [] p.

Definition os_path_join (a b : path) : path :=
  match b with
  | 47 :: _ => b
  | _ => match last a with
         | None => b
         | Some c => if c =? SLASH then a ++ b else a ++ [SLASH] ++ b
         end
  end.

(** [os.path.splitext(name)[0]] for a name without separators: the
    part before the last dot, unless only dots precede it. *)
Fixpoint rfind_dot (s : str) : option nat :=
  match s with
  | [] => None
  | c :: s' =>
      match rfind_dot s' with
      | Some k => Some (S k)
      | None => if c =? DOT then Some O else None
      end
  end.

Definition splitext_root (name : str) : str :=
  match rfind_dot name with
  | Some k => if forallb (fun c => c =? DOT) (take k name) then name else take k name
  | None => name
  end.

(** [member.lower().endswith(".pdf")]: the only characters that
    lower-case to [p], [d], [f] are these letters and their capitals. *)
Definition lower_endswith_pdf (member : str) : bool :=
  match rev member with
  | f :: d :: p :: dot :: _ =>
      (dot =? DOT) && in_class (80, 112) p && in_class (68, 100) d && in_class (70, 102) f
  | _ => false
  end.

End Sys.
Import Sys.

(* ================================================================== *)
(** ** [redact_pdf_content] *)
(* ================================================================== *)

Module Redactor.

Definition header_height : Q := 70.
Definition footer_height : Q := 70.
Definition BLACK : N * N * N := (0, 0, 0).

Definition Qlt_b (a b : Q) : bool := negb (Qle_bool b a).

(** [(a.y0, a.x0) < (b.y0, b.x0)] on tuples. *)
Definition key_lt (a b : Rect) : bool :=
  if Qeq_bool (y0 a) (y0 b) then Qlt_b (x0 a) (x0 b) else Qlt_b (y0 a) (y0 b).

(** [sorted(..., key=lambda r: (r.y0, r.x0))]: the stable sort. *)
Fixpoint insert_sorted (r : Rect) (l : list Rect) : list Rect :=
  match l with
  | [] => [r]
  | s :: l' => if key_lt s r then s :: insert_sorted r l' else r :: s :: l'
  end.

Definition sorted_by_key (l : list Rect) : list Rect := foldr insert_sorted [] l.

(** [page.add_redact_annot(rect, text="", fill=(0, 0, 0))]. *)
Definition redact_annot (rect : Rect) : Annot := mkAnnot rect [] BLACK.

(** [page.apply_redactions()]. *)
Definition apply_redactions (page : Page) (annots : list Annot) : Page :=
  mkPage (page_width page) (page_height page) (page_content page)
         (page_redacted page ++ annots).

Definition header_rect_of (page : Page) : Rect :=
  mkRect 0 0 (page_width page) header_height.

Definition footer_rect_of (page : Page) : Rect :=
  mkRect 0 (page_height page - footer_height) (page_width page) (page_height page).

Section WithLib.
Variable L : Lib.

(** Lines 116-147: the loop over the entries. *)
Fixpoint prepare_patterns (case_sensitive : bool) (items : list Entry)
    (search_patterns : list str) : M (list str) :=
  match items with
  | [] => mret search_patterns
  | item :: rest =>
      match search_pattern case_sensitive item with
      | Some s => prepare_patterns case_sensitive rest (search_patterns ++ [s])
      | None =>
          print (WarnInvalidPattern item);;
          prepare_patterns case_sensitive rest search_patterns
      end
  end.

(** Lines 167-178: the search of every pattern on a page. *)
Fixpoint search_page (page_num : nat) (page : Page) (search_patterns : list str)
    (text_instances_found : list Rect) : M (list Rect) :=
  match search_patterns with
  | [] => mret text_instances_found
  | s_pattern :: rest =>
      match search_for L page s_pattern with
      | Some rects => search_page page_num page rest (text_instances_found ++ rects)
      | None =>
          print (ErrSearch s_pattern (page_num + 1));;
          search_page page_num page rest text_instances_found
      end
  end.

(** Line 185. *)
Definition survives (header_rect footer_rect rect : Rect) : bool :=
  negb (rect_intersects L header_rect rect) && negb (rect_intersects L footer_rect rect).

(** Lines 183-187. *)
Fixpoint redact_rects (header_rect footer_rect : Rect) (redaction_rects : list Rect)
    (annots : list Annot) (total_redactions : N) : list Annot * N :=
  match redaction_rects with
  | [] => (annots, total_redactions)
  | rect :: rest =>
      if survives header_rect footer_rect rect
      then redact_rects header_rect footer_rect rest
             (annots ++ [redact_annot rect]) (total_redactions + 1)
      else redact_rects header_rect footer_rect rest annots total_redactions
  end.

(** The annotations of one page and the counter after it
    (lines 151-187). *)
Definition page_annots (search_patterns : list str) (page_num : nat) (page : Page)
    (total_redactions : N) : M (list Annot * N) :=
  let header_rect := header_rect_of page in
  let footer_rect := footer_rect_of page in
  let annots := [redact_annot header_rect; redact_annot footer_rect] in
  let total_redactions := total_redactions + 2 in
  text_instances_found ← search_page page_num page search_patterns [];
  let redaction_rects := sorted_by_key text_instances_found in
  mret (redact_rects header_rect footer_rect redaction_rects annots total_redactions).

(** Lines 150-190: the loop over the pages; [redone] holds the pages
    already redacted. *)
Fixpoint redact_pages (search_patterns : list str) (page_num : nat) (pages : list Page)
    (redone : list Page) (total_redactions : N) : M (list Page * N) :=
  match pages with
  | [] => mret (redone, total_redactions)
  | page :: rest =>
      '(annots, total_redactions) ← page_annots search_patterns page_num page total_redactions;
      redact_pages search_patterns (S page_num) rest
                   (redone ++ [apply_redactions page annots]) total_redactions
  end.

(** [fitz.open(path)]. *)
Definition fitz_open (p : path) : M Document :=
  f ← read_file p;
  match f with
  | Plain (CPdf d) => if fitz_opens L d then emit (Opened p);; mret d else raise OtherError
  | _ => raise OtherError
  end.

(** [doc.save(output)] of a document opened from [input]: saving onto
    the file it was opened from is refused. *)
Definition doc_save (d : Document) (input output : path) : M unit :=
  if bool_decide (output = input) then raise OtherError
  else write_file output (Plain (CPdf d));; emit (Saved output).

(** [shutil.copy(src, dst)]: copying a file onto itself is refused. *)
Definition shutil_copy (src dst : path) : M unit :=
  if bool_decide (dst = src) then raise OtherError
  else f ← read_file src; write_file dst f;; emit (Copied src dst).

Definition redact_pdf_content (input_pdf_path output_pdf_path : path)
    (words_and_patterns_to_redact : list Entry) (case_sensitive : bool) : M bool :=
  print (InfoAttemptRedaction (os_path_basename input_pdf_path));;
  found ← os_path_exists input_pdf_path;
  if negb found then
    print (ErrInputNotFound (os_path_basename input_pdf_path));;
    mret false
  else
    try_except
      (doc ← fitz_open input_pdf_path;
       search_patterns ← prepare_patterns case_sensitive words_and_patterns_to_redact [];
       '(pages, total_redactions) ← redact_pages search_patterns 0 (doc_pages doc) [] 0;
       if 0 <? total_redactions then
         doc_save (mkDoc pages (doc_metadata doc)) input_pdf_path output_pdf_path;;
         print (InfoRedacted total_redactions);;
         mret true
       else
         shutil_copy input_pdf_path output_pdf_path;;
         print WarnCopiedOriginal;;
         mret true)
      (fun _ => print ErrRedaction;; mret false).

(* ---------------------------------------------------------------- *)
(** ** [extract_text_from_pdf] *)

(** Lines 218-226. *)
Definition mode_of (n : N) : option str :=
  if n =? 1 then Some (py "L")
  else if n =? 3 then Some (py "RGB")
  else if n =? 4 then Some (py "RGBA")
  else None.

(** Lines 215-232. *)
Fixpoint extract_pages (page_num : nat) (pages : list Page) (text : str) : M str :=
  match pages with
  | [] => mret text
  | page :: rest =>
      match pixmap_n L page with
      | None => raise OtherError
      | Some n =>
          match mode_of n with
          | None =>
              print (WarnChannels n (page_num + 1));;
              extract_pages (S page_num) rest text
          | Some _ =>
              match image_to_string L page with
              | None => raise OtherError
              | Some page_text => extract_pages (S page_num) rest (text ++ page_text ++ [NL])
              end
          end
      end
  end.

Definition extract_text_from_pdf (pdf_path : path) : M str :=
  try_except
    (doc ← fitz_open pdf_path;
     extract_pages 0 (doc_pages doc) [])
    (fun _ => print ErrExtract;; mret []).

(* ---------------------------------------------------------------- *)
(** ** [remove_pdf_metadata] *)

Definition remove_pdf_metadata (file_path : path) : M bool :=
  try_except
    (f ← read_file file_path;
     match f with
     | Plain (CPdf d) =>
         if pypdf2_reads L d then
           let temp_path := replace (py ".pdf") (py "_temp_metadata_stripped.pdf") file_path in
           write_file temp_path (Plain (CPdf (mkDoc (doc_pages d) [])));;
           os_replace temp_path file_path;;
           print InfoMetadataRemoved;;
           mret true
         else raise OtherError
     | _ => raise OtherError
     end)
    (fun _ => print ErrMetadata;; mret false).

End WithLib.
End Redactor.
Import Redactor.

(* ================================================================== *)
(** ** [process_zip_file_workflow] *)
(* ================================================================== *)

Module Workflow.
Import PostCleaner.

Section WithLibs.
Variable U : Ucd.
Variable L : Lib.

(** Lines 46-55: the members whose name ends in [.pdf] are extracted. *)
Fixpoint extract_members (extracted_pdf_dir : path) (members : list Member)
    (pdf_files_in_zip : list path) : M (list path) :=
  match members with
  | [] => mret pdf_files_in_zip
  | member :: rest =>
      if lower_endswith_pdf (m_name member) then
        let extracted_path := os_path_join extracted_pdf_dir (os_path_basename (m_name member)) in
        match m_content member with
        | None => raise OtherError
        | Some c =>
            write_file extracted_path (Plain c);;
            print (InfoExtracted (os_path_basename (m_name member)));;
            extract_members extracted_pdf_dir rest (pdf_files_in_zip ++ [extracted_path])
        end
      else extract_members extracted_pdf_dir rest pdf_files_in_zip
  end.

(** Lines 84-96: what follows the text extraction. *)
Definition after_extraction (text_output_dir : path) (base_name : str)
    (extracted_text : str) : M unit :=
  match extracted_text with
  | [] => print (ErrSkipExtract base_name)
  | _ =>
      print (InfoStep 4);;
      let cleaned_text := remove_undesired_patterns U extracted_text in
      let output_txt_file :=
        os_path_join text_output_dir (splitext_root base_name ++ py ".txt") in
      write_file output_txt_file (Plain (CText cleaned_text));;
      emit (TextWritten output_txt_file cleaned_text);;
      print (InfoSavedText base_name)
  end.

(** Lines 62-96: the body of the loop over the extracted files. *)
Definition process_pdf (redacted_pdf_dir text_output_dir pdf_path : path) : M unit :=
  let base_name := os_path_basename pdf_path in
  print (InfoProcessing base_name);;
  print (InfoStep 1);;
  metadata_removed ← remove_pdf_metadata L pdf_path;
  if negb metadata_removed then print (ErrSkipMetadata base_name)
  else
    let redacted_pdf_path := os_path_join redacted_pdf_dir (py "redacted_" ++ base_name) in
    print (InfoStep 2);;
    redacted ← redact_pdf_content L pdf_path redacted_pdf_path
                 REDACTION_PATTERNS IS_CASE_SENSITIVE_PDF_REDACTION;
    if negb redacted then print (ErrSkipRedact base_name)
    else
      print (InfoStep 3);;
      extracted_text ← extract_text_from_pdf L redacted_pdf_path;
      after_extraction text_output_dir base_name extracted_text.

Fixpoint process_files (redacted_pdf_dir text_output_dir : path)
    (pdf_files_in_zip : list path) : M unit :=
  match pdf_files_in_zip with
  | [] => mret tt
  | pdf_path :: rest =>
      process_pdf redacted_pdf_dir text_output_dir pdf_path;;
      process_files redacted_pdf_dir text_output_dir rest
  end.

(** [zipfile.ZipFile(path, 'r')]. *)
Definition open_zip (zip_file_path : path) : M (list Member) :=
  f ← read_file zip_file_path;
  match f with
  | Zip members => mret members
  | Plain _ => raise BadZipFile
  end.

(** The directories are names only: the file system is a flat map, so
    [os.makedirs] has nothing to do. *)
Definition process_zip_file_workflow (zip_file_path output_base_dir : path) : M bool :=
  let extracted_pdf_dir := os_path_join output_base_dir (py "extracted_pdfs") in
  let redacted_pdf_dir := os_path_join output_base_dir (py "redacted_pdfs") in
  let text_output_dir := os_path_join output_base_dir (py "text_output") in
  try_except
    (found ← os_path_exists zip_file_path;
     if negb found then print ErrZipNotFound;; mret false
     else
       members ← open_zip zip_file_path;
       pdf_files_in_zip ← extract_members extracted_pdf_dir members [];
       match pdf_files_in_zip with
       | [] => print WarnNoPdf;; mret false
       | _ =>
           process_files redacted_pdf_dir text_output_dir pdf_files_in_zip;;
           print InfoAllProcessed;;
           mret true
       end)
    (fun e =>
       match e with
       | BadZipFile => print ErrBadZip;; mret false
       | OtherError => print ErrUnexpected;; mret false
       end).

End WithLibs.
End Workflow.
Import Workflow.

(* ================================================================== *)
(** ** The program of [process_to_upload.py] (lines 116-156) *)
(* ================================================================== *)

Module MainProgram.

(** [pytesseract.get_tesseract_version()]: a version, or
    [TesseractNotFoundError], or another exception. *)
Inductive TesseractCheck :=
| TesseractFound (version : str)
| TesseractNotFound
| TesseractFailed.

(** What the program itself prints. *)
Inductive MainMsg :=
| ErrNoZipPath
| WarnNoFolderName
| InfoAttempting (zip_file_input full_output_path : str)
| InfoTesseract (version : str)
| ErrTesseractMissing
| ErrTesseractCheck
| InfoStarting
| InfoCompleted (full_output_path output_folder_name : str)
| InfoFailed.

(** How the program ends: [sys.exit(code)], the end of the script, or
    an exception that nothing catches. *)
Inductive Outcome :=
| Exit (code : N)
| Done
| Uncaught (e : Exc).

Record Run := mkRun { outcome : Outcome; printed : list MainMsg; world : World }.

(** [s.strip()]. *)
Fixpoint lstrip (s : str) : str :=
  match s with
  | [] => []
  | c :: s' => if is_space c then lstrip s' else s
  end.

Definition rstrip (s : str) : str := rev (lstrip (rev s)).

Definition strip (s : str) : str := rstrip (lstrip s).

Section WithLibs.
Variable U : Ucd.
Variable L : Lib.

(** The two lines typed by the user, the current directory and the
    state of the Tesseract installation are the inputs. *)
Definition main (tesseract : TesseractCheck) (cwd : path) (zip_line folder_line : str)
    (w : World) : Run :=
  let zip_file_input := strip zip_line in
  let output_folder_name := strip folder_line in
  match zip_file_input with
  | [] => mkRun (Exit 1) [ErrNoZipPath] w
  | _ =>
      let '(output_folder_name, out) :=
        match output_folder_name with
        | [] => (py "processed_output", [WarnNoFolderName])
        | _ => (output_folder_name, [])
        end in
      let full_output_path := os_path_join cwd output_folder_name in
      let out := out ++ [InfoAttempting zip_file_input full_output_path] in
      match tesseract with
      | TesseractNotFound => mkRun (Exit 1) (out ++ [ErrTesseractMissing]) w
      | TesseractFailed => mkRun (Exit 1) (out ++ [ErrTesseractCheck]) w
      | TesseractFound version =>
          let out := out ++ [InfoTesseract version; InfoStarting] in
          match process_zip_file_workflow U L zip_file_input full_output_path w with
          | (Ok success, w') =>
              if success
              then mkRun Done (out ++ [InfoCompleted full_output_path output_folder_name]) w'
              else mkRun Done (out ++ [InfoFailed]) w'
          | (Raised e, w') => mkRun (Uncaught e) out w'
          end
      end
  end.

End WithLibs.
End MainProgram.
Import MainProgram.

(* ================================================================== *)
(** ** Notions used to state the properties, and sample data *)
(* ================================================================== *)

Module CleanerSpec.

(** [tok] is the trademark token in some casing. *)
Fixpoint matches_classes (cls : list (N * N)) (tok : str) : bool :=
  match cls, tok with
  | [], [] => true
  | cl :: cls', c :: tok' => in_class cl c && matches_classes cls' tok'
  | _, _ => false
  end.

Definition is_token (tok : str) : bool := matches_classes uptodate_classes tok.

(** The character before the end of [pre], or [prev] when [pre] is
    empty. *)
Definition last_or (prev : option N) (pre : str) : option N :=
  match last pre with
  | Some c => Some c
  | None => prev
  end.

(** In [pre ++ tok ++ post], [tok] is the token standing as a whole
    word: no word character touches it on either side. *)
Definition whole_word (U : Ucd) (pre tok post : str) : Prop :=
  is_token tok = true /\ word_opt U (last pre) = false /\ word_opt U (head post) = false.


(** A table for plain ASCII texts. *)
Definition ascii_ucd : Ucd :=
  {| unicode_decimal := fun _ => false; unicode_alnum := fun _ => false |}.

End CleanerSpec.
Import CleanerSpec.

Module PatternSpec.

Definition is_valid (item : Entry) : bool :=
  match item with
  | EOther _ => false
  | _ => true
  end.

(** The patterns of the valid entries, in the order of the entries. *)
Definition generated (case_sensitive : bool) (items : list Entry) : list str :=
  omap (search_pattern case_sensitive) items.

(** One warning for each invalid entry. *)
Definition warnings (items : list Entry) : list Event :=
  (fun item => Print (WarnInvalidPattern item)) <$> List.filter (fun item => negb (is_valid item)) items.

(** The flags of a compiled entry that are carried over. *)
Definition carried (flags : N) : N :=
  N.land flags (N.lor (N.lor DOTALL MULTILINE) UNICODE).

Definition LETTER_i : N := 105.

(** The entry [re.compile(r"AUTHORS:.*?(?:\n|$)", re.IGNORECASE)]. *)
Definition authors_entry : Entry := ERe (py "AUTHORS:.*?(?:\n|$)") (N.lor IGNORECASE UNICODE).

End PatternSpec.
Import PatternSpec.

Module RedactorSpec.


(** All the rectangles found on a page, pattern after pattern; a
    pattern whose search raises contributes none. *)
Definition matches_on (L : Lib) (page : Page) (search_patterns : list str) : list Rect :=
  flat_map (fun s => default [] (search_for L page s)) search_patterns.

Definition search_errors (L : Lib) (page_num : nat) (page : Page)
    (search_patterns : list str) : list Event :=
  flat_map (fun s => match search_for L page s with
                     | Some _ => []
                     | None => [Print (ErrSearch s (page_num + 1))]
                     end) search_patterns.

(** The match rectangles of a page that get an annotation of their
    own. *)
Definition surviving (L : Lib) (page : Page) (search_patterns : list str) : list Rect :=
  List.filter (survives L (header_rect_of page) (footer_rect_of page))
              (sorted_by_key (matches_on L page search_patterns)).

(** Open rectangles that overlap. *)
Definition overlaps (a b : Rect) : bool :=
  Qlt_b (x0 a) (x1 b) && Qlt_b (x0 b) (x1 a) && Qlt_b (y0 a) (y1 b) && Qlt_b (y0 b) (y1 a).

(** Libraries that accept every document and find no text. *)
Definition quiet_lib : Lib :=
  {| pypdf2_reads := fun _ => true;
     fitz_opens := fun _ => true;
     rect_intersects := overlaps;
     search_for := fun _ _ => Some [];
     pixmap_n := fun _ => Some 3;
     image_to_string := fun pg => if page_content pg =? 0 then None else Some (py "text") |}.

(** A Letter page without redactions. *)
Definition letter_page (content : N) : Page := mkPage 612 792 content [].

Definition one_page_doc : Document := mkDoc [letter_page 1] [].
Definition empty_doc : Document := mkDoc [] [].

Definition in_pdf : path := py "in.pdf".
Definition out_pdf : path := py "out.pdf".

Definition world_with (p : path) (f : File) : World := mkWorld {[ p := f ]} [].

End RedactorSpec.
Import RedactorSpec.

Module WorkflowSpec.

(** The world after more events. *)
Definition say (w : World) (evs : list Event) : World :=
  mkWorld (fs w) (trace w ++ evs).

Definition is_text_written (e : Event) : bool :=
  match e with
  | TextWritten _ _ => true
  | _ => false
  end.

Definition is_opened (e : Event) : bool :=
  match e with
  | Opened _ => true
  | _ => false
  end.

(** The text files written so far. *)
Definition texts (w : World) : list Event := List.filter is_text_written (trace w).

(** A page after its redactions are applied. *)
Definition redacted_page (L : Lib) (search_patterns : list str) (page : Page) : Page :=
  apply_redactions page
    (redact_annot (header_rect_of page) :: redact_annot (footer_rect_of page)
       :: List.map redact_annot (surviving L page search_patterns)).

(** What the pages of a document add to [total_redactions]. *)
Fixpoint count_redactions (L : Lib) (search_patterns : list str) (pages : list Page) : N :=
  match pages with
  | [] => 0
  | page :: rest =>
      2 + N.of_nat (length (surviving L page search_patterns))
      + count_redactions L search_patterns rest
  end.

(** What the loop over the pages prints: the search errors, page
    after page. *)
Fixpoint page_errors (L : Lib) (pats : list str) (page_num : nat) (pages : list Page)
    : list Event :=
  match pages with
  | [] => []
  | page :: rest => search_errors L page_num page pats ++ page_errors L pats (S page_num) rest
  end.

(** Rendering or recognising the page raises. *)
Definition page_raises (L : Lib) (page : Page) : bool :=
  match pixmap_n L page with
  | None => true
  | Some n =>
      match mode_of n with
      | None => false
      | Some _ => negb (bool_decide (is_Some (image_to_string L page)))
      end
  end.

Definition pdf_members (members : list Member) : list Member :=
  List.filter (fun m => lower_endswith_pdf (m_name m)) members.

Definition readable (m : Member) : bool := bool_decide (is_Some (m_content m)).

(** The archive is there, is an archive, holds a PDF member, and every
    PDF member can be read. *)
Definition job_succeeds (w : World) (zip_file_path : path) : bool :=
  match fs w !! zip_file_path with
  | Some (Zip members) =>
      negb (bool_decide (pdf_members members = [])) && forallb readable (pdf_members members)
  | _ => false
  end.

(** A computation that writes no text file, whatever its result. *)
Definition quiet {A} (m : M A) : Prop := forall w, texts (snd (m w)) = texts w.

(** A computation that never raises. *)
Definition safe {A} (m : M A) : Prop := forall w, exists a w', m w = (Ok a, w').

(** Where the archive member [m] is extracted to. *)
Definition extracted_path_of (extracted_pdf_dir : path) (m : Member) : path :=
  os_path_join extracted_pdf_dir (os_path_basename (m_name m)).

(** The one-page document after redaction with no match. *)
Definition redacted_one_page_doc : Document :=
  mkDoc [mkPage 612 792 1
           [mkAnnot (mkRect 0 0 612 70) [] (0, 0, 0);
            mkAnnot (mkRect 0 722 612 792) [] (0, 0, 0)]] [].

(** A document whose second page cannot be recognised. *)
Definition two_page_doc : Document := mkDoc [letter_page 1; letter_page 0] [].

Definition empty_world : World := mkWorld ∅ [].

(** A valid archive whose only member is an encrypted PDF. *)
Definition locked_zip : File := Zip [mkMember (py "a.pdf") None].
Definition zip_path : path := py "in.zip".
Definition out_dir : path := py "out".

End WorkflowSpec.
Import WorkflowSpec.

Module CoverageSpec.

(** [s] is the literal [p] up to the case of its letters. *)
Fixpoint ci_equal (p s : str) : bool :=
  match p, s with
  | [], [] => true
  | a :: p', c :: s' => ci_char a c && ci_equal p' s'
  | _, _ => false
  end.

(** The size of the lines once joined, counting a separator after
    each. *)
Fixpoint weight (ls : list str) : nat :=
  match ls with
  | [] => 0%nat
  | l :: ls' => (S (length l) + weight ls')%nat
  end.

(** A marker line in capitals, the year glued to the sign. *)
Definition shouting_marker : str := py "(c) COPYRIGHT " ++ [169] ++ py "1999 Acme".

(** The flag group put before a pattern, from its letters. *)
Definition with_letters (letters pattern_string : str) : str :=
  match letters with
  | [] => pattern_string
  | _ => py "(?" ++ letters ++ py ")" ++ pattern_string
  end.

(** Two rectangles with the same sort key. *)
Definition same_key (a b : Rect) : bool :=
  Qeq_bool (y0 a) (y0 b) && Qeq_bool (x0 a) (x0 b).

(** The input is a document that opens and the output is another
    path. *)
Definition redaction_succeeds (L : Lib) (w : World) (input output : path) : bool :=
  match fs w !! input with
  | Some (Plain (CPdf d)) => fitz_opens L d && negb (bool_decide (output = input))
  | _ => false
  end.

(** How a page and its redacted form are related. *)
Definition redacted_from (L : Lib) (pats : list str) (page page' : Page) : Prop :=
  page_width page' = page_width page
  /\ page_height page' = page_height page
  /\ page_content page' = page_content page
  /\ page_redacted page'
     = page_redacted page
       ++ redact_annot (header_rect_of page) :: redact_annot (footer_rect_of page)
       :: List.map redact_annot (surviving L page pats).

(** The annotations added to the pages of a document. *)
Fixpoint added_annotations (pages pages' : list Page) : nat :=
  match pages, pages' with
  | page :: rest, page' :: rest' =>
      (length (page_redacted page') - length (page_redacted page)
       + added_annotations rest rest')%nat
  | _, _ => 0%nat
  end.

(** Two matches on one line of text and one further down. *)
Definition sample_rects : list Rect :=
  [mkRect 300 100 340 112; mkRect 72 100 110 112; mkRect 72 80 110 92].

(** Where [remove_pdf_metadata] writes before it replaces the file. *)
Definition temp_path_of (file_path : path) : path :=
  replace (py ".pdf") (py "_temp_metadata_stripped.pdf") file_path.

(** The file is a document that PyPDF2 accepts. *)
Definition metadata_removable (L : Lib) (w : World) (file_path : path) : bool :=
  match fs w !! file_path with
  | Some (Plain (CPdf d)) => pypdf2_reads L d
  | _ => false
  end.

(** [old in s]. *)
Fixpoint contains (old s : str) : bool :=
  startswith old s ||
  match s with
  | [] => false
  | _ :: s' => contains old s'
  end.

(** The file is a document that PyMuPDF opens. *)
Definition openable (L : Lib) (w : World) (p : path) : bool :=
  match fs w !! p with
  | Some (Plain (CPdf d)) => fitz_opens L d
  | _ => false
  end.

(** What a page that does not raise adds to the text. *)
Definition page_text (L : Lib) (page : Page) : str :=
  match pixmap_n L page with
  | Some n =>
      match mode_of n, image_to_string L page with
      | Some _, Some t => t ++ [NL]
      | _, _ => []
      end
  | None => []
  end.

(** The page renders, with a number of channels that is not handled. *)
Definition unsupported (L : Lib) (page : Page) : bool :=
  match pixmap_n L page with
  | Some n => negb (bool_decide (is_Some (mode_of n)))
  | None => false
  end.

(** A computation that leaves every file as it is. *)
Definition keeps_files {A} (m : M A) : Prop := forall w, fs (snd (m w)) = fs w.

(** Libraries whose renderer gives five channels. *)
Definition five_channel_lib : Lib :=
  {| pypdf2_reads := fun _ => true;
     fitz_opens := fun _ => true;
     rect_intersects := overlaps;
     search_for := fun _ _ => Some [];
     pixmap_n := fun _ => Some 5;
     image_to_string := fun _ => Some (py "text") |}.

Definition titled_doc : Document :=
  mkDoc [letter_page 1] [(py "/Title", py "Lipid disorders")].

Definition upper_pdf : path := py "IN.PDF".

(** The files after the readable PDF members are written, one after
    the other. *)
Definition write_members (dir : path) (selected : list Member) (files : gmap path File)
    : gmap path File :=
  foldl (fun files m =>
           match m_content m with
           | Some c => <[extracted_path_of dir m := Plain c]> files
           | None => files
           end) files selected.

Definition extracted_files (dir : path) (members : list Member) (files : gmap path File)
    : gmap path File :=
  write_members dir (pdf_members members) files.

Definition no_slash (name : str) : bool := forallb (fun c => negb (c =? SLASH)) name.
Definition no_dot (ext : str) : bool := forallb (fun c => negb (c =? DOT)) ext.
Definition some_non_dot (stem : str) : bool := existsb (fun c => negb (c =? DOT)) stem.

(** The folder the output goes to. *)
Definition output_folder (folder_line : str) : str :=
  match strip folder_line with
  | [] => py "processed_output"
  | name => name
  end.

(** A typed line without white space at either end. *)
Definition trimmed (core : str) : bool :=
  match core, last core with
  | a :: _, Some b => negb (is_space a) && negb (is_space b)
  | _, _ => false
  end.

Definition tesseract_available (t : TesseractCheck) : bool :=
  match t with
  | TesseractFound _ => true
  | _ => false
  end.

(** Two lines without marker nor token. *)
Definition plain_text : str := py "Lipid" ++ [NL] ++ py "levels".

Definition one_page_world : World := world_with in_pdf (Plain (CPdf one_page_doc)).

(** An archive with two members of the same base name. *)
Definition twin_members : list Member :=
  [mkMember (py "a/x.pdf") (Some (CPdf one_page_doc));
   mkMember (py "b/x.pdf") (Some (CPdf empty_doc))].

End CoverageSpec.
Import CoverageSpec.

(* ================================================================== *)
(** * Properties *)
(* ================================================================== *)

(** ** The post-cleaner *)

Module CleanerFacts.
Import PostCleaner.

Section WithUcd.
Variable U : Ucd.

Lemma in_class_word cl c :
  cl ∈ uptodate_classes -> in_class cl c = true -> is_word U c = true.
Proof.
  intros Hin Hc. unfold uptodate_classes in Hin.
  repeat (apply elem_of_cons in Hin as [-> | Hin]);
    try (unfold in_class in Hc; simpl in Hc;
         apply orb_true_iff in Hc as [Hc | Hc]; apply N.eqb_eq in Hc; subst c; reflexivity).
  inversion Hin.
Qed.

Lemma classes_nonword_head cls prev c s :
  cls <> [] -> (forall cl, cl ∈ cls -> cl ∈ uptodate_classes) ->
  is_word U c = false -> classes_then_boundary U cls prev (c :: s) = false.
Proof.
  intros Hne Hsub Hc. destruct cls as [| cl cls']; [congruence |].
  simpl. destruct (in_class cl c) eqn:E; [| reflexivity].
  rewrite (in_class_word cl c) in Hc; [discriminate | | exact E].
  apply Hsub. left.
Qed.

(** No match starts at a character that is not a word character. *)
Lemma token_here_nonword_head prev s :
  word_opt U (head s) = false -> token_here U prev s = false.
Proof.
  intros H. unfold token_here. destruct s as [| c s].
  - apply andb_false_r.
  - rewrite classes_nonword_head; [apply andb_false_r | discriminate | auto | exact H].
Qed.

(** What a successful match of the classes says about the text. *)
Lemma classes_then_boundary_inv cls prev s :
  classes_then_boundary U cls prev s = true ->
  exists tok post, s = tok ++ post /\ matches_classes cls tok = true
                   /\ at_boundary U (last_or prev tok) (head post) = true.
Proof.
  revert prev s. induction cls as [| cl cls IH]; intros prev s H; simpl in H.
  - exists [], s. auto.
  - destruct s as [| c s]; [discriminate |].
    apply andb_true_iff in H as [Hc H].
    destruct (IH _ _ H) as (tok & post & -> & Hm & Hb).
    exists (c :: tok), post. split; [reflexivity |]. split.
    + simpl. rewrite Hc. exact Hm.
    + unfold last_or in *. rewrite last_cons. destruct (last tok); exact Hb.
Qed.


Lemma matches_classes_length cls tok :
  matches_classes cls tok = true -> length tok = length cls.
Proof.
  revert tok. induction cls as [| cl cls IH]; intros [| c tok] H; simpl in *; try discriminate.
  - reflexivity.
  - apply andb_true_iff in H as [_ H]. f_equal. auto.
Qed.

Lemma matches_classes_word cls tok c :
  (forall cl, cl ∈ cls -> cl ∈ uptodate_classes) ->
  matches_classes cls tok = true -> c ∈ tok -> is_word U c = true.
Proof.
  revert tok. induction cls as [| cl cls IH]; intros [| d tok] Hsub H Hin; simpl in *;
    try discriminate; try (inversion Hin; fail).
  apply andb_true_iff in H as [Hd H].
  apply elem_of_cons in Hin as [-> | Hin].
  - eapply in_class_word; [apply Hsub; left | exact Hd].
  - eapply IH; [| exact H | exact Hin]. intros cl' Hcl'. apply Hsub. now right.
Qed.

Lemma is_token_shape tok :
  is_token tok = true ->
  exists c tok', tok = c :: tok' /\ is_word U c = true
                 /\ exists e, last tok = Some e /\ is_word U e = true.
Proof.
  intros H. pose proof (matches_classes_length _ _ H) as Hlen.
  destruct tok as [| c tok']; [discriminate |].
  exists c, tok'. split; [reflexivity |]. split.
  - eapply matches_classes_word; [| exact H | left]. auto.
  - destruct (last (c :: tok')) as [e |] eqn:E.
    + exists e. split; [reflexivity |].
      eapply matches_classes_word; [| exact H |]; [auto |].
      apply last_Some in E as [l' ->]. apply elem_of_app. right. left.
    + apply last_None in E. discriminate.
Qed.

(** A match is exactly a whole-word occurrence at the position. *)
Lemma token_here_inv prev s :
  token_here U prev s = true ->
  exists tok post, s = tok ++ post /\ is_token tok = true
                   /\ word_opt U prev = false /\ word_opt U (head post) = false.
Proof.
  unfold token_here. intros H. apply andb_true_iff in H as [Hb H].
  destruct (classes_then_boundary_inv _ _ _ H) as (tok & post & -> & Hm & He).
  exists tok, post. split; [reflexivity |]. split; [exact Hm |].
  destruct (is_token_shape tok Hm) as (c & tok' & -> & Hc & e & Hl & Hw).
  unfold last_or in He. rewrite Hl in He.
  unfold at_boundary in *. simpl in Hb, He. rewrite Hc in Hb. rewrite Hw in He.
  split.
  - destruct (word_opt U prev); [discriminate | reflexivity].
  - destruct (word_opt U (head post)); [discriminate | reflexivity].
Qed.


(** Dropping the rest of a match. *)
Lemma sub_go_skip a b prev :
  sub_go U prev (length a) (a ++ b) = sub_go U (last_or prev a) 0 b.
Proof.
  revert prev. induction a as [| c a IH]; intros prev.
  - reflexivity.
  - simpl. rewrite IH. unfold last_or. rewrite last_cons. now destruct (last a).
Qed.

(** The character before a position matters only to a match there. *)
Lemma sub_go_prev_irrelevant p q s :
  word_opt U (head s) = false -> sub_go U p 0 s = sub_go U q 0 s.
Proof.
  intros H. destruct s as [| c s]; [reflexivity |].
  simpl. rewrite !token_here_nonword_head by exact H. reflexivity.
Qed.






Lemma sub_go_untouched s : forall before,
  (forall pre tok post, before ++ s = pre ++ tok ++ post -> ~ whole_word U pre tok post) ->
  sub_go U (last before) 0 s = s.
Proof.
  induction s as [| c s IH]; intros before Hno; [reflexivity |].
  simpl. destruct (token_here U (last before) (c :: s)) eqn:E.
  - destruct (token_here_inv _ _ E) as (tok & post & Heq & Htok & Hp & Hq).
    exfalso. apply (Hno before tok post); [now rewrite Heq |]. now repeat split.
  - f_equal. specialize (IH (before ++ [c])). rewrite last_snoc in IH. apply IH.
    intros pre tok post Heq. apply Hno. rewrite <- Heq, <- app_assoc. reflexivity.
Qed.

(** A line without a whole-word occurrence of the token is unchanged;
    an occurrence inside a longer word is not a whole word. *)
Lemma re_sub_uptodate_untouched line :
  (forall pre tok post, line = pre ++ tok ++ post -> ~ whole_word U pre tok post) ->
  re_sub_uptodate U line = line.
Proof.
  intros H. apply (sub_go_untouched line []). exact H.
Qed.

(** *** The loop *)

Lemma step_marker lines i out line :
  lines !! i = Some line -> marker_search U line = true ->
  step U lines (i, out) = ((i + 3)%nat, if pops lines i out then removelast out else out).
Proof.
  intros Hi Hm. unfold step. rewrite Hi, Hm. f_equal. lia.
Qed.

Lemma step_plain lines i out line :
  lines !! i = Some line -> marker_search U line = false ->
  step U lines (i, out) = ((i + 1)%nat, out ++ [re_sub_uptodate U line]).
Proof.
  intros Hi Hm. unfold step. now rewrite Hi, Hm.
Qed.

Lemma step_advances lines i out :
  (i < length lines)%nat -> (i < fst (step U lines (i, out)))%nat.
Proof.
  intros Hi. unfold step. destruct (lookup_lt_is_Some_2 lines i Hi) as [line ->].
  destruct (marker_search U line); simpl; lia.
Qed.

(** The fuel [len(lines)] is enough: the loop stops because its
    condition fails. *)
Lemma loop_exits lines : forall fuel i out,
  (length lines - i <= fuel)%nat ->
  (length lines <= fst (loop U fuel lines (i, out)))%nat.
Proof.
  induction fuel as [| fuel IH]; intros i out Hf; cbn [loop fst].
  - lia.
  - destruct (Nat.ltb_spec i (length lines)) as [Hlt | Hge]; [| simpl; lia].
    pose proof (step_advances lines i out Hlt) as Hadv.
    destruct (step U lines (i, out)) as [i' out'] eqn:E. simpl in Hadv.
    apply IH. lia.
Qed.

(** On lines without the marker the loop cleans and keeps each line. *)
Lemma loop_no_marker lines : forall fuel i out,
  Forall (fun l => marker_search U l = false) lines ->
  (length lines - i <= fuel)%nat ->
  snd (loop U fuel lines (i, out)) = out ++ List.map (re_sub_uptodate U) (drop i lines).
Proof.
  induction fuel as [| fuel IH]; intros i out Hall Hf; cbn [loop fst snd].
  - rewrite drop_ge by lia. simpl. now rewrite app_nil_r.
  - destruct (Nat.ltb_spec i (length lines)) as [Hlt | Hge].
    + destruct (lookup_lt_is_Some_2 lines i Hlt) as [line Hline].
      assert (Hm : marker_search U line = false).
      { rewrite Forall_forall in Hall. apply Hall. eapply list_elem_of_lookup_2. exact Hline. }
      rewrite (step_plain _ _ _ _ Hline Hm). rewrite IH by (auto; lia).
      rewrite (drop_S _ _ _ Hline). simpl. rewrite <- app_assoc.
      replace (i + 1)%nat with (S i) by lia. reflexivity.
    + simpl. rewrite drop_ge by lia. simpl. now rewrite app_nil_r.
Qed.

Lemma remove_undesired_patterns_no_marker text :
  Forall (fun l => marker_search U l = false) (split_on NL text) ->
  remove_undesired_patterns U text
  = join_with [NL] (List.map (re_sub_uptodate U) (split_on NL text)).
Proof.
  intros H. unfold remove_undesired_patterns.
  rewrite loop_no_marker by (auto; lia). reflexivity.
Qed.

End WithUcd.

(** C2. On the specification's example the marker line removes the
    emitted line before it and then the index advances by three, not
    two: both following lines are skipped and the result is the empty
    text, where the documented behaviour would leave the last line. *)
Theorem remove_undesired_patterns_skips_two_following_lines (U : Ucd) :
  remove_undesired_patterns U example_text = []
  /\ remove_undesired_patterns U example_text <> py "C"
  /\ (forall lines i out line, lines !! i = Some line -> marker_search U line = true ->
        fst (step U lines (i, out)) = (i + 3)%nat).
Proof.
  split; [| split].
  - vm_compute. reflexivity.
  - vm_compute. discriminate.
  - intros lines i out line Hi Hm. rewrite (step_marker U _ _ _ _ Hi Hm). reflexivity.
Qed.

(** *** The lines that are kept *)





Section Selection.
Variable U : Ucd.


End Selection.



End CleanerFacts.

(** ** Pattern preparation *)

Module PatternFacts.

Lemma has_flag_bit x k : has_flag x (2 ^ k) = N.testbit x k.
Proof.
  unfold has_flag. destruct (N.testbit x k) eqn:E.
  - apply negb_true_iff, N.eqb_neq. intros H.
    assert (T : N.testbit (N.land x (2 ^ k)) k = true).
    { rewrite N.land_spec, E, N.pow2_bits_true. reflexivity. }
    rewrite H in T. rewrite N.bits_0 in T. discriminate.
  - apply negb_false_iff, N.eqb_eq. apply N.bits_inj. intros n.
    rewrite N.land_spec, N.bits_0, N.pow2_bits_eqb.
    destruct (N.eqb_spec k n) as [-> | _]; [now rewrite E | apply andb_false_r].
Qed.

Lemma has_flag_IGNORECASE x : has_flag x IGNORECASE = N.testbit x 1.
Proof. exact (has_flag_bit x 1). Qed.

Lemma has_flag_MULTILINE x : has_flag x MULTILINE = N.testbit x 3.
Proof. exact (has_flag_bit x 3). Qed.

Lemma has_flag_DOTALL x : has_flag x DOTALL = N.testbit x 4.
Proof. exact (has_flag_bit x 4). Qed.

Lemma has_flag_UNICODE x : has_flag x UNICODE = N.testbit x 5.
Proof. exact (has_flag_bit x 5). Qed.

Lemma carried_bit f k :
  N.testbit (carried f) k = N.testbit f k && ((k =? 3) || (k =? 4) || (k =? 5)).
Proof.
  unfold carried. rewrite N.land_spec. f_equal.
  change (N.lor (N.lor DOTALL MULTILINE) UNICODE) with (N.lor (N.lor (2 ^ 4) (2 ^ 3)) (2 ^ 5)).
  rewrite !N.lor_spec, !N.pow2_bits_eqb.
  rewrite (N.eqb_sym 4 k), (N.eqb_sym 3 k), (N.eqb_sym 5 k).
  destruct (k =? 3), (k =? 4), (k =? 5); reflexivity.
Qed.

(** The flags of a compiled entry: the global flag decides the case
    bit, the entry the three others. *)
Lemma pattern_flags_bits cs f :
  has_flag (pattern_flags cs f) IGNORECASE = negb cs
  /\ has_flag (pattern_flags cs f) DOTALL = N.testbit f 4
  /\ has_flag (pattern_flags cs f) MULTILINE = N.testbit f 3
  /\ has_flag (pattern_flags cs f) UNICODE = N.testbit f 5.
Proof.
  rewrite has_flag_IGNORECASE, has_flag_DOTALL, has_flag_MULTILINE, has_flag_UNICODE.
  unfold pattern_flags. fold (carried f).
  rewrite !N.lor_spec, !carried_bit. simpl.
  destruct cs; simpl.
  - rewrite !andb_true_r, !andb_false_r. auto.
  - rewrite !andb_true_r, !andb_false_r.
    destruct (has_flag f IGNORECASE); simpl; rewrite ?orb_false_r; auto.
Qed.

Lemma flag_str_pattern_flags cs f :
  flag_str (pattern_flags cs f)
  = (if cs then [] else py "i") ++ (if N.testbit f 4 then py "s" else [])
    ++ (if N.testbit f 3 then py "m" else []) ++ (if N.testbit f 5 then py "u" else []).
Proof.
  destruct (pattern_flags_bits cs f) as (Hi & Hs & Hm & Hu).
  unfold flag_str. rewrite Hi, Hs, Hm, Hu. now destruct cs.
Qed.

Lemma flag_str_carried f :
  flag_str (carried f) = flag_str (pattern_flags true f).
Proof. reflexivity. Qed.

Lemma embed_flags_insensitive f p :
  has_flag f IGNORECASE = true -> has_inline_flag LETTER_i (embed_flags f p) = true.
Proof.
  intros H. unfold embed_flags, flag_str. rewrite H.
  destruct (has_flag f DOTALL), (has_flag f MULTILINE), (has_flag f UNICODE); reflexivity.
Qed.

Lemma flag_str_no_i f :
  has_flag f IGNORECASE = false -> LETTER_i ∉ flag_str f.
Proof.
  intros H. unfold flag_str. rewrite H.
  destruct (has_flag f DOTALL), (has_flag f MULTILINE), (has_flag f UNICODE);
    simpl; intros Hin; repeat (apply elem_of_cons in Hin as [Hin | Hin]; [discriminate |]);
    inversion Hin.
Qed.

(** *** [re.escape] *)

Lemma is_special_cases c :
  is_special c = true -> ascii_alnum c = false.
Proof.
  unfold is_special. intros H. apply bool_decide_eq_true in H.
  unfold special_chars in H. simpl in H.
  repeat (apply elem_of_cons in H as [-> | H]; [reflexivity |]).
  inversion H.
Qed.

Lemma not_special_plain c :
  is_special c = false -> (c =? 92) = false /\ is_metachar c = false /\ (c =? 40) = false.
Proof.
  intros H. split; [| split].
  - destruct (N.eqb_spec c 92) as [-> | _]; [discriminate H | reflexivity].
  - destruct (is_metachar c) eqn:E; [| reflexivity].
    unfold is_metachar in E. apply bool_decide_eq_true in E.
    unfold metachars in E. simpl in E.
    repeat (apply elem_of_cons in E as [-> | E]; [discriminate H |]).
    inversion E.
  - destruct (N.eqb_spec c 40) as [-> | _]; [discriminate H | reflexivity].
Qed.

(** An escaped text is a pattern of literal characters that denotes
    the text. *)
Lemma literal_of_re_escape s : literal_of (re_escape s) = Some s.
Proof.
  unfold literal_of. induction s as [| c s IH]; [reflexivity |].
  simpl. destruct (is_special c) eqn:E.
  - cbn [literal_go]. destruct (N.eqb_spec 92 92); [| congruence].
    rewrite (is_special_cases c E), IH. reflexivity.
  - destruct (not_special_plain c E) as (H92 & Hm & _).
    cbn [literal_go]. rewrite H92, Hm, IH. reflexivity.
Qed.

Lemma re_escape_no_inline_flag f s : has_inline_flag f (re_escape s) = false.
Proof.
  destruct s as [| c s]; [reflexivity |]. simpl.
  destruct (is_special c) eqn:E; [reflexivity |].
  destruct (not_special_plain c E) as (_ & _ & H40).
  unfold has_inline_flag. destruct (re_escape s); [reflexivity |]. now rewrite H40.
Qed.

(** *** The loop over the entries *)

Lemma prepare_patterns_run cs items : forall acc w,
  prepare_patterns cs items acc w
  = (Ok (acc ++ generated cs items), mkWorld (fs w) (trace w ++ warnings items)).
Proof.
  induction items as [| item items IH]; intros acc w.
  - unfold generated, warnings. simpl. rewrite !app_nil_r. now destruct w.
  - cbn [prepare_patterns]. unfold generated, warnings in *. cbn [omap list_omap List.filter].
    destruct item as [s | p f | r]; cbn [search_pattern is_valid negb].
    + rewrite IH. rewrite <- app_assoc. reflexivity.
    + rewrite IH. rewrite <- app_assoc. reflexivity.
    + unfold mbind, M_bind, print, emit. rewrite IH. cbn [fs trace fmap list_fmap].
      rewrite <- app_assoc. reflexivity.
Qed.

Lemma generated_app cs items1 items2 :
  generated cs (items1 ++ items2) = generated cs items1 ++ generated cs items2.
Proof. unfold generated. apply omap_app. Qed.

(** C3, as the code has it.  The global flag alone decides the inline
    [i]: when [case_sensitive] is false every generated pattern opens
    with a flag group that holds [i]; when it is true the flag group of
    a compiled entry is made of the entry's DOTALL, MULTILINE and
    UNICODE flags only and holds no [i], whatever the entry's own
    IGNORECASE flag. *)
Theorem case_flag_follows_global (case_sensitive : bool) (item : Entry) (s : str) :
  search_pattern case_sensitive item = Some s ->
  (case_sensitive = false -> has_inline_flag LETTER_i s = true)
  /\ (case_sensitive = true -> forall p f, item = ERe p f ->
        s = embed_flags (carried f) p /\ LETTER_i ∉ flag_str (carried f)).
Proof.
  intros H. split.
  - intros ->. destruct item as [t | p f | r]; simpl in H; inversion H; subst s.
    + reflexivity.
    + apply embed_flags_insensitive. apply (pattern_flags_bits false f).
  - intros -> p f ->. simpl in H. inversion H; subst s. split.
    + reflexivity.
    + apply flag_str_no_i. apply (pattern_flags_bits true f).
Qed.

(** C3, as stated, fails: with [case_sensitive] true the entry compiled
    with IGNORECASE gets the pattern [(?u)AUTHORS...], without [i]. *)
Lemma ignorecase_entry_without_inline_i :
  has_flag (N.lor IGNORECASE UNICODE) IGNORECASE = true
  /\ search_pattern true authors_entry = Some (py "(?u)AUTHORS:.*?(?:\n|$)")
  /\ has_inline_flag LETTER_i (py "(?u)AUTHORS:.*?(?:\n|$)") = false.
Proof. repeat split. Qed.

(** C6. The pattern of a literal entry is its [re.escape], a pattern of
    literal characters denoting the entry itself; it is prefixed with
    the group [(?i)] exactly when the global flag asks for
    case-insensitive matching, and carries no [i] flag otherwise. *)
Theorem literal_entry_escaped (case_sensitive : bool) (entry : str) :
  search_pattern case_sensitive (EStr entry)
  = Some ((if case_sensitive then [] else py "(?i)") ++ re_escape entry)
  /\ literal_of (re_escape entry) = Some entry
  /\ has_inline_flag LETTER_i ((if case_sensitive then [] else py "(?i)") ++ re_escape entry)
     = negb case_sensitive.
Proof.
  split; [| split].
  - now destruct case_sensitive.
  - apply literal_of_re_escape.
  - destruct case_sensitive; simpl; [apply re_escape_no_inline_flag | reflexivity].
Qed.

(** C9. The loop over the entries never raises; an entry that is
    neither a string nor a compiled pattern yields no pattern and one
    warning; the patterns of the other entries come out in the order of
    the entries, one per entry, duplicates included. *)
Theorem invalid_entries_skipped_order_kept (case_sensitive : bool)
    (items : list Entry) (w : World) :
  prepare_patterns case_sensitive items [] w
  = (Ok (generated case_sensitive items), mkWorld (fs w) (trace w ++ warnings items))
  /\ (forall r, generated case_sensitive [EOther r] = []
                /\ warnings [EOther r] = [Print (WarnInvalidPattern (EOther r))])
  /\ (forall item, is_valid item = true ->
        exists s, generated case_sensitive [item] = [s]
                  /\ generated case_sensitive [item; item] = [s; s]
                  /\ warnings [item] = [])
  /\ (forall items1 items2,
        generated case_sensitive (items1 ++ items2)
        = generated case_sensitive items1 ++ generated case_sensitive items2)
  /\ length (generated case_sensitive items) = length (List.filter is_valid items).
Proof.
  split; [| split; [| split; [| split]]].
  - apply (prepare_patterns_run case_sensitive items [] w).
  - intros r. split; reflexivity.
  - intros [t | p f | r] Hv; try discriminate; eexists; repeat split.
  - apply generated_app.
  - unfold generated. induction items as [| [t | p f | r] items IH]; simpl; auto.
Qed.

End PatternFacts.

(** ** The redactor *)

Module RedactorFacts.

Lemma Qlt_b_spec a b : Qlt_b a b = true <-> (a < b)%Q.
Proof.
  unfold Qlt_b. rewrite negb_true_iff. split.
  - intros H. apply Qnot_le_lt. intros Hle. apply Qle_bool_iff in Hle. congruence.
  - intros H. destruct (Qle_bool b a) eqn:E; [| reflexivity].
    apply Qle_bool_iff in E. exfalso. apply (Qlt_not_le _ _ H E).
Qed.

Lemma key_lt_spec a b :
  key_lt a b = true <-> (y0 a < y0 b \/ (y0 a == y0 b /\ x0 a < x0 b))%Q.
Proof.
  unfold key_lt. destruct (Qeq_bool (y0 a) (y0 b)) eqn:E.
  - apply Qeq_bool_iff in E. rewrite Qlt_b_spec. split.
    + intros H. right. split; assumption.
    + intros [H | [_ H]]; [| exact H]. rewrite E in H. exfalso. apply (Qlt_irrefl _ H).
  - apply Qeq_bool_neq in E. rewrite Qlt_b_spec. split.
    + intros H. now left.
    + intros [H | [H _]]; [exact H | contradiction].
Qed.








Section WithLib.
Variable L : Lib.

Lemma search_page_run page_num page pats : forall found w,
  search_page L page_num page pats found w
  = (Ok (found ++ matches_on L page pats),
     mkWorld (fs w) (trace w ++ search_errors L page_num page pats)).
Proof.
  induction pats as [| s pats IH]; intros found w.
  - simpl. rewrite !app_nil_r. now destruct w.
  - cbn [search_page]. unfold matches_on, search_errors in *. cbn [flat_map].
    destruct (search_for L page s) as [rects |].
    + rewrite IH. simpl. rewrite <- app_assoc. reflexivity.
    + unfold mbind, M_bind, print, emit. rewrite IH. simpl.
      rewrite <- app_assoc. reflexivity.
Qed.

Lemma redact_rects_run header footer rects : forall annots total,
  redact_rects L header footer rects annots total
  = (annots ++ List.map redact_annot (List.filter (survives L header footer) rects),
     total + N.of_nat (length (List.filter (survives L header footer) rects))).
Proof.
  induction rects as [| r rects IH]; intros annots total.
  - simpl. now rewrite app_nil_r, N.add_0_r.
  - cbn [redact_rects List.filter]. destruct (survives L header footer r).
    + rewrite IH. cbn [List.map length]. rewrite <- app_assoc. f_equal. lia.
    + apply IH.
Qed.

Lemma page_annots_run pats page_num page total w :
  page_annots L pats page_num page total w
  = (Ok (redact_annot (header_rect_of page) :: redact_annot (footer_rect_of page)
           :: List.map redact_annot (surviving L page pats),
         total + 2 + N.of_nat (length (surviving L page pats))),
     mkWorld (fs w) (trace w ++ search_errors L page_num page pats)).
Proof.
  unfold page_annots, mbind, M_bind. rewrite search_page_run.
  unfold mret, M_ret. rewrite redact_rects_run. reflexivity.
Qed.

End WithLib.

End RedactorFacts.

(** ** [redact_pdf_content] as a whole *)

Module RedactionFacts.
Import PatternFacts RedactorFacts.

(** *** Running computations step by step *)

Lemma bind_run {A B} (m : M A) (k : A -> M B) w a w' :
  m w = (Ok a, w') -> (m ≫= k) w = k a w'.
Proof. intros H. unfold mbind, M_bind. now rewrite H. Qed.

Lemma bind_raised {A B} (m : M A) (k : A -> M B) w e w' :
  m w = (Raised e, w') -> (m ≫= k) w = (Raised e, w').
Proof. intros H. unfold mbind, M_bind. now rewrite H. Qed.

Lemma try_ok {A} (m : M A) h w a w' :
  m w = (Ok a, w') -> try_except m h w = (Ok a, w').
Proof. intros H. unfold try_except. now rewrite H. Qed.

Lemma try_raised {A} (m : M A) h w e w' :
  m w = (Raised e, w') -> try_except m h w = h e w'.
Proof. intros H. unfold try_except. now rewrite H. Qed.

Lemma print_run m w : print m w = (Ok tt, say w [Print m]).
Proof. reflexivity. Qed.

Lemma emit_run e w : emit e w = (Ok tt, say w [e]).
Proof. reflexivity. Qed.

Lemma ret_run {A} (a : A) w : (mret a : M A) w = (Ok a, w).
Proof. reflexivity. Qed.

Lemma exists_run p w : os_path_exists p w = (Ok (bool_decide (is_Some (fs w !! p))), w).
Proof. reflexivity. Qed.

Lemma read_file_run p w f : fs w !! p = Some f -> read_file p w = (Ok f, w).
Proof. intros H. unfold read_file. now rewrite H. Qed.

Lemma read_file_missing p w : fs w !! p = None -> read_file p w = (Raised OtherError, w).
Proof. intros H. unfold read_file. now rewrite H. Qed.

Lemma write_file_run p f w :
  write_file p f w = (Ok tt, mkWorld (<[p := f]> (fs w)) (trace w)).
Proof. reflexivity. Qed.

(** One step of a sequence: run its first computation with [lem]. *)
Ltac step lem := erewrite bind_run; [| solve [lem]]; cbv beta iota.

Lemma say_say w evs1 evs2 : say (say w evs1) evs2 = say w (evs1 ++ evs2).
Proof. unfold say. simpl. now rewrite app_assoc. Qed.

Lemma say_nil w : say w [] = w.
Proof. unfold say. rewrite app_nil_r. now destruct w. Qed.

Lemma texts_say w evs :
  texts (say w evs) = texts w ++ List.filter is_text_written evs.
Proof. unfold texts, say. simpl. apply List.filter_app. Qed.

Section WithLib.
Variable L : Lib.

Lemma redact_pages_run pats pages : forall page_num redone total w,
  redact_pages L pats page_num pages redone total w
  = (Ok (redone ++ List.map (redacted_page L pats) pages,
         total + count_redactions L pats pages),
     say w (page_errors L pats page_num pages)).
Proof.
  induction pages as [| page pages IH]; intros page_num redone total w.
  - simpl. rewrite app_nil_r, N.add_0_r, say_nil. reflexivity.
  - cbn [redact_pages]. unfold mbind at 1, M_bind at 1.
    rewrite page_annots_run. rewrite IH. cbn [List.map count_redactions page_errors].
    unfold say. cbn [fs trace]. rewrite <- !app_assoc.
    replace (total + 2 + N.of_nat (length (surviving L page pats))
             + count_redactions L pats pages)
      with (total + (2 + N.of_nat (length (surviving L page pats))
                     + count_redactions L pats pages)) by lia.
    reflexivity.
Qed.

Lemma search_errors_no_text page_num page pats :
  List.filter is_text_written (search_errors L page_num page pats) = []
  /\ List.filter is_opened (search_errors L page_num page pats) = [].
Proof.
  unfold search_errors. induction pats as [| s pats [IH1 IH2]]; [split; reflexivity |].
  simpl. destruct (search_for L page s); simpl; auto.
Qed.

Lemma page_errors_no_text pats pages : forall page_num,
  List.filter is_text_written (page_errors L pats page_num pages) = [].
Proof.
  induction pages as [| page pages IH]; intros page_num; [reflexivity |].
  simpl. rewrite List.filter_app, IH, (proj1 (search_errors_no_text _ _ _)). reflexivity.
Qed.

Lemma count_redactions_zero pats pages :
  count_redactions L pats pages = 0 <-> pages = [].
Proof.
  destruct pages as [| page pages]; simpl; split; intros H; try reflexivity; try discriminate.
  lia.
Qed.

Lemma redacted_page_differs pats page : redacted_page L pats page <> page.
Proof.
  intros H. apply (f_equal (fun pg => length (page_redacted pg))) in H.
  unfold redacted_page, apply_redactions in H. simpl in H.
  rewrite length_app in H. simpl in H. lia.
Qed.

(** The input is missing: nothing is opened and nothing is written. *)
Lemma fitz_open_run p w d :
  fs w !! p = Some (Plain (CPdf d)) -> fitz_opens L d = true ->
  fitz_open L p w = (Ok d, say w [Opened p]).
Proof.
  intros Hp Hd. unfold fitz_open.
  step ltac:(apply read_file_run; exact Hp). rewrite Hd.
  step ltac:(apply emit_run). reflexivity.
Qed.

(** [fitz.open] raises and leaves the world as it is. *)
Lemma fitz_open_fails p w :
  (forall d, fs w !! p = Some (Plain (CPdf d)) -> fitz_opens L d = false) ->
  fitz_open L p w = (Raised OtherError, w).
Proof.
  intros H. unfold fitz_open. destruct (fs w !! p) as [f |] eqn:E.
  - step ltac:(apply read_file_run; exact E).
    destruct f as [[d | t | raw] | ms]; try reflexivity.
    now rewrite (H d eq_refl).
  - erewrite bind_raised; [reflexivity | now apply read_file_missing].
Qed.

Lemma doc_save_run d input output w :
  output <> input ->
  doc_save d input output w
  = (Ok tt, mkWorld (<[output := Plain (CPdf d)]> (fs w)) (trace w ++ [Saved output])).
Proof.
  intros Hne. unfold doc_save. rewrite bool_decide_eq_false_2 by exact Hne.
  step ltac:(apply write_file_run). reflexivity.
Qed.

Lemma shutil_copy_run src dst f w :
  dst <> src -> fs w !! src = Some f ->
  shutil_copy src dst w
  = (Ok tt, mkWorld (<[dst := f]> (fs w)) (trace w ++ [Copied src dst])).
Proof.
  intros Hne Hsrc. unfold shutil_copy. rewrite bool_decide_eq_false_2 by exact Hne.
  step ltac:(apply read_file_run; exact Hsrc).
  step ltac:(apply write_file_run). reflexivity.
Qed.

(** The input is missing: nothing is opened and nothing is written. *)
Lemma redact_missing_input input output items cs w :
  fs w !! input = None ->
  redact_pdf_content L input output items cs w
  = (Ok false, say w [Print (InfoAttemptRedaction (os_path_basename input));
                      Print (ErrInputNotFound (os_path_basename input))]).
Proof.
  intros H. unfold redact_pdf_content.
  step ltac:(apply print_run). step ltac:(apply exists_run).
  cbn [say fs]. rewrite bool_decide_eq_false_2 by (rewrite H; intros [x Hx]; discriminate).
  cbn [negb]. step ltac:(apply print_run). rewrite ret_run, say_say. reflexivity.
Qed.

(** The input is a document that opens: the call succeeds; the output
    is a copy when nothing was redacted, the redacted document
    otherwise. *)
Lemma redact_opened input output items cs w d :
  fs w !! input = Some (Plain (CPdf d)) -> fitz_opens L d = true -> output <> input ->
  let pats := generated cs items in
  let total := count_redactions L pats (doc_pages d) in
  let before := [Print (InfoAttemptRedaction (os_path_basename input)); Opened input]
                  ++ warnings items ++ page_errors L pats 0 (doc_pages d) in
  redact_pdf_content L input output items cs w
  = if 0 <? total
    then (Ok true,
          mkWorld (<[output := Plain (CPdf (mkDoc (List.map (redacted_page L pats) (doc_pages d))
                                                  (doc_metadata d)))]> (fs w))
                  (trace w ++ before ++ [Saved output; Print (InfoRedacted total)]))
    else (Ok true,
          mkWorld (<[output := Plain (CPdf d)]> (fs w))
                  (trace w ++ before ++ [Copied input output; Print WarnCopiedOriginal])).
Proof.
  intros Hin Hopen Hne pats total before. unfold redact_pdf_content.
  step ltac:(apply print_run). step ltac:(apply exists_run).
  cbn [say fs]. rewrite bool_decide_eq_true_2 by (rewrite Hin; eauto). cbn [negb].
  destruct (0 <? total) eqn:E; (erewrite try_ok; [reflexivity |]);
    step ltac:(apply fitz_open_run; [exact Hin | exact Hopen]);
    step ltac:(apply prepare_patterns_run);
    step ltac:(apply redact_pages_run);
    cbn [app]; rewrite N.add_0_l; fold pats; fold total; rewrite E;
    unfold say; cbn [fs trace].
  - step ltac:(apply doc_save_run; exact Hne). step ltac:(apply print_run).
    rewrite ret_run. unfold say, before. cbn [fs trace]. rewrite <- !app_assoc. reflexivity.
  - step ltac:(apply shutil_copy_run; [exact Hne | exact Hin]). step ltac:(apply print_run).
    rewrite ret_run. unfold say, before. cbn [fs trace]. rewrite <- !app_assoc. reflexivity.
Qed.

End WithLib.


(** C1, as the code has it.  A document that opens is copied unchanged
    to a different output path when it has no page at all; with at
    least one page the header and footer redactions are counted, so the
    redacted document, which differs from the input, is saved instead,
    whether or not a pattern matches.  The call returns [True] in both
    cases. *)
Theorem copied_only_without_pages (L : Lib) (input output : path) (items : list Entry)
    (case_sensitive : bool) (w : World) (d : Document) :
  fs w !! input = Some (Plain (CPdf d)) ->
  fitz_opens L d = true ->
  output <> input ->
  exists evs out_doc,
    redact_pdf_content L input output items case_sensitive w
    = (Ok true, mkWorld (<[output := Plain (CPdf out_doc)]> (fs w)) (trace w ++ evs))
    /\ (doc_pages d = [] -> out_doc = d /\ In (Copied input output) evs)
    /\ (doc_pages d <> [] ->
          out_doc = mkDoc (List.map (redacted_page L (generated case_sensitive items)) (doc_pages d))
                          (doc_metadata d)
          /\ out_doc <> d /\ In (Saved output) evs).
Proof.
  intros Hin Hopen Hne.
  pose proof (redact_opened L input output items case_sensitive w d Hin Hopen Hne) as Hrun.
  cbv zeta in Hrun. rewrite Hrun. clear Hrun.
  destruct (N.ltb_spec 0 (count_redactions L (generated case_sensitive items) (doc_pages d)))
    as [Hpos | Hzero].
  - eexists _, _. split; [reflexivity |]. split.
    + intros Hnil. rewrite Hnil in Hpos. simpl in Hpos. lia.
    + intros Hpages. split; [reflexivity |]. split.
      * destruct d as [pages meta]. simpl in *. intros Heq. injection Heq as Heq.
        destruct pages as [| page pages]; [congruence |].
        simpl in Heq. injection Heq as Heq _. now apply redacted_page_differs in Heq.
      * apply in_or_app. right. left. reflexivity.
  - assert (Hnil : doc_pages d = []).
    { apply (count_redactions_zero L (generated case_sensitive items)). lia. }
    eexists _, _. split; [reflexivity |]. split.
    + intros _. split; [reflexivity |].
      apply in_or_app. right. left. reflexivity.
    + intros Hpages. contradiction.
Qed.

(** C1, as stated, fails: no pattern matches on the only page of the
    document, and the output is the document with its header and footer
    blacked out, not a copy of the input. *)
Lemma unmatched_document_not_copied :
  let w := world_with in_pdf (Plain (CPdf one_page_doc)) in
  let r := redact_pdf_content quiet_lib in_pdf out_pdf REDACTION_PATTERNS false w in
  Forall (fun page => matches_on quiet_lib page (generated false REDACTION_PATTERNS) = [])
         (doc_pages one_page_doc)
  /\ fst r = Ok true
  /\ fs (snd r) !! out_pdf = Some (Plain (CPdf redacted_one_page_doc))
  /\ fs (snd r) !! out_pdf <> fs w !! in_pdf.
Proof.
  intros w r. split; [repeat constructor |].
  assert (Hin : fs w !! in_pdf = Some (Plain (CPdf one_page_doc))) by apply lookup_singleton_eq.
  unfold r. rewrite (redact_opened quiet_lib in_pdf out_pdf REDACTION_PATTERNS false w one_page_doc Hin);
    [| reflexivity | discriminate].
  cbv zeta.
  assert (Hc : (0 <? count_redactions quiet_lib (generated false REDACTION_PATTERNS)
                       (doc_pages one_page_doc)) = true) by reflexivity.
  rewrite Hc. cbn [fst snd fs]. split; [reflexivity |].
  rewrite lookup_insert_eq, Hin. split; [reflexivity | discriminate].
Qed.

(** C10. When the input path does not exist the call returns [False],
    no document is opened, and the file system, the output path in
    particular, is as it was. *)
Theorem missing_input_leaves_output (L : Lib) (input output : path) (items : list Entry)
    (case_sensitive : bool) (w : World) :
  fs w !! input = None ->
  let r := redact_pdf_content L input output items case_sensitive w in
  fst r = Ok false
  /\ fs (snd r) = fs w
  /\ fs (snd r) !! output = fs w !! output
  /\ exists evs, trace (snd r) = trace w ++ evs /\ List.filter is_opened evs = [].
Proof.
  intros H r. unfold r. rewrite (redact_missing_input L input output items case_sensitive w H).
  repeat split. eexists. split; reflexivity.
Qed.

End RedactionFacts.

(** ** Text extraction and the workflow *)

Module WorkflowFacts.
Import PostCleaner PatternFacts RedactorFacts RedactionFacts.

(** *** Computations that write no text file *)

Lemma quiet_ret {A} (a : A) : quiet (mret a : M A).
Proof. intros w. reflexivity. Qed.

Lemma quiet_raise {A} e : quiet (raise e : M A).
Proof. intros w. reflexivity. Qed.

Lemma quiet_emit e : is_text_written e = false -> quiet (emit e).
Proof.
  intros H w. unfold emit, texts. simpl. rewrite List.filter_app. simpl. rewrite H.
  apply app_nil_r.
Qed.

Lemma quiet_print m : quiet (print m).
Proof. now apply quiet_emit. Qed.

Lemma quiet_exists p : quiet (os_path_exists p).
Proof. intros w. reflexivity. Qed.

Lemma quiet_read_file p : quiet (read_file p).
Proof. intros w. unfold read_file. now destruct (fs w !! p). Qed.

Lemma quiet_write_file p f : quiet (write_file p f).
Proof. intros w. reflexivity. Qed.

Lemma quiet_os_replace src dst : quiet (os_replace src dst).
Proof. intros w. unfold os_replace. now destruct (fs w !! src). Qed.

Lemma quiet_bind {A B} (m : M A) (k : A -> M B) :
  quiet m -> (forall a, quiet (k a)) -> quiet (m ≫= k).
Proof.
  intros Hm Hk w. unfold mbind, M_bind. specialize (Hm w).
  destruct (m w) as [[a | e] w1]; simpl in Hm.
  - rewrite (Hk a w1). exact Hm.
  - exact Hm.
Qed.

Lemma quiet_try {A} (m : M A) h :
  quiet m -> (forall e, quiet (h e)) -> quiet (try_except m h).
Proof.
  intros Hm Hh w. unfold try_except. specialize (Hm w).
  destruct (m w) as [[a | e] w1]; simpl in Hm.
  - exact Hm.
  - rewrite (Hh e w1). exact Hm.
Qed.

Lemma quiet_if {A} (b : bool) (m1 m2 : M A) :
  quiet m1 -> quiet m2 -> quiet (if b then m1 else m2).
Proof. now destruct b. Qed.

Create HintDb quiet.
#[local] Hint Resolve quiet_ret quiet_raise quiet_print quiet_exists quiet_read_file
  quiet_write_file quiet_os_replace quiet_if : quiet.
#[local] Hint Extern 1 (quiet (emit _)) => apply quiet_emit; reflexivity : quiet.
#[local] Hint Extern 2 (quiet (_ ≫= _)) => apply quiet_bind; [| intros ?] : quiet.
#[local] Hint Extern 2 (quiet (try_except _ _)) => apply quiet_try; [| intros ?] : quiet.

(** *** Computations that never raise *)

Lemma safe_ret {A} (a : A) : safe (mret a : M A).
Proof. intros w. now exists a, w. Qed.

Lemma safe_emit e : safe (emit e).
Proof. intros w. eexists _, _. reflexivity. Qed.

Lemma safe_print m : safe (print m).
Proof. apply safe_emit. Qed.

Lemma safe_exists p : safe (os_path_exists p).
Proof. intros w. eexists _, _. reflexivity. Qed.

Lemma safe_write_file p f : safe (write_file p f).
Proof. intros w. eexists _, _. reflexivity. Qed.

Lemma safe_bind {A B} (m : M A) (k : A -> M B) :
  safe m -> (forall a, safe (k a)) -> safe (m ≫= k).
Proof.
  intros Hm Hk w. destruct (Hm w) as (a & w1 & H1).
  rewrite (bind_run _ _ _ _ _ H1). apply Hk.
Qed.

Lemma safe_try {A} (m : M A) h : (forall e, safe (h e)) -> safe (try_except m h).
Proof.
  intros Hh w. unfold try_except. destruct (m w) as [[a | e] w1].
  - now exists a, w1.
  - apply Hh.
Qed.

Lemma safe_if {A} (b : bool) (m1 m2 : M A) :
  safe m1 -> safe m2 -> safe (if b then m1 else m2).
Proof. now destruct b. Qed.

Create HintDb safe.
#[local] Hint Resolve safe_ret safe_emit safe_print safe_exists safe_write_file safe_if : safe.
#[local] Hint Extern 2 (safe (_ ≫= _)) => apply safe_bind; [| intros ?] : safe.
#[local] Hint Extern 2 (safe (try_except _ _)) => apply safe_try; intros ? : safe.

Section WithLibs.
Variable U : Ucd.
Variable L : Lib.

Lemma quiet_prepare_patterns cs items : forall acc, quiet (prepare_patterns cs items acc).
Proof.
  induction items as [| item items IH]; intros acc; cbn [prepare_patterns].
  - auto with quiet.
  - destruct (search_pattern cs item); auto with quiet.
Qed.

Lemma quiet_redact_pages pats pages : forall n redone total,
  quiet (redact_pages L pats n pages redone total).
Proof.
  intros n redone total w. rewrite redact_pages_run. cbn [snd].
  rewrite texts_say, page_errors_no_text. apply app_nil_r.
Qed.

Lemma quiet_fitz_open p : quiet (fitz_open L p).
Proof.
  unfold fitz_open. apply quiet_bind; [auto with quiet |].
  intros [[d | t | raw] | ms]; auto with quiet.
Qed.

Lemma quiet_doc_save d input output : quiet (doc_save d input output).
Proof. unfold doc_save. auto with quiet. Qed.

Lemma quiet_shutil_copy src dst : quiet (shutil_copy src dst).
Proof. unfold shutil_copy. auto 6 with quiet. Qed.

Lemma quiet_redact input output items cs :
  quiet (redact_pdf_content L input output items cs).
Proof.
  unfold redact_pdf_content.
  apply quiet_bind; [auto with quiet | intros _].
  apply quiet_bind; [auto with quiet | intros found].
  apply quiet_if; [auto with quiet |].
  apply quiet_try; [| auto with quiet].
  apply quiet_bind; [apply quiet_fitz_open | intros doc].
  apply quiet_bind; [apply quiet_prepare_patterns | intros pats].
  apply quiet_bind; [apply quiet_redact_pages | intros [pages total]].
  apply quiet_if.
  - apply quiet_bind; [apply quiet_doc_save | auto with quiet].
  - apply quiet_bind; [apply quiet_shutil_copy | auto with quiet].
Qed.

Lemma safe_redact input output items cs :
  safe (redact_pdf_content L input output items cs).
Proof. unfold redact_pdf_content. auto 8 with safe. Qed.

Lemma quiet_extract_pages pages : forall n text, quiet (extract_pages L n pages text).
Proof.
  induction pages as [| page pages IH]; intros n text; cbn [extract_pages].
  - auto with quiet.
  - destruct (pixmap_n L page) as [c |]; [| auto with quiet].
    destruct (mode_of c); [| auto with quiet].
    destruct (image_to_string L page); auto with quiet.
Qed.

Lemma quiet_extract p : quiet (extract_text_from_pdf L p).
Proof.
  unfold extract_text_from_pdf. apply quiet_try; [| auto with quiet].
  apply quiet_bind; [apply quiet_fitz_open | intros doc; apply quiet_extract_pages].
Qed.

Lemma safe_extract p : safe (extract_text_from_pdf L p).
Proof. unfold extract_text_from_pdf. auto 8 with safe. Qed.

Lemma quiet_remove_metadata p : quiet (remove_pdf_metadata L p).
Proof.
  unfold remove_pdf_metadata. apply quiet_try; [| auto with quiet].
  apply quiet_bind; [auto with quiet |].
  intros [[d | t | raw] | ms]; auto 8 with quiet.
Qed.

Lemma safe_remove_metadata p : safe (remove_pdf_metadata L p).
Proof. unfold remove_pdf_metadata. auto 8 with safe. Qed.

(** A page that raises makes the loop over the pages raise, whatever
    text the pages before it gave. *)
Lemma extract_pages_raises pages : forall n text w,
  Exists (fun page => page_raises L page = true) pages ->
  exists w', extract_pages L n pages text w = (Raised OtherError, w').
Proof.
  induction pages as [| page pages IH]; intros n text w Hex.
  - inversion Hex.
  - cbn [extract_pages]. unfold page_raises in Hex.
    destruct (pixmap_n L page) as [c |] eqn:Ec.
    + destruct (mode_of c) eqn:Em.
      * destruct (image_to_string L page) as [page_text |] eqn:Et.
        -- apply IH. apply Exists_cons in Hex as [Hh | Ht]; [| exact Ht].
           rewrite Ec, Em, Et in Hh. simpl in Hh. discriminate.
        -- now eexists.
      * apply Exists_cons in Hex as [Hh | Ht]; [rewrite Ec, Em in Hh; discriminate |].
        destruct (IH (S n) text (say w [Print (WarnChannels c (n + 1))]) Ht) as [w' Hw'].
        exists w'. erewrite bind_run; [exact Hw' | apply print_run].
    + now eexists.
Qed.

Lemma extract_fails_empty p w :
  (exists w', (fitz_open L p ≫= fun doc => extract_pages L 0 (doc_pages doc) []) w
              = (Raised OtherError, w')) ->
  exists w', extract_text_from_pdf L p w = (Ok [], w') /\ texts w' = texts w.
Proof.
  intros [w1 H1]. eexists. split.
  - unfold extract_text_from_pdf. rewrite (try_raised _ _ _ _ _ H1).
    erewrite bind_run; [apply ret_run | apply print_run].
  - pose proof (quiet_extract p w) as Hq. unfold extract_text_from_pdf in Hq.
    rewrite (try_raised _ _ _ _ _ H1) in Hq.
    erewrite bind_run in Hq; [| apply print_run]. rewrite ret_run in Hq. exact Hq.
Qed.

Lemma after_extraction_empty text_output_dir base_name w :
  after_extraction U text_output_dir base_name [] w
  = (Ok tt, say w [Print (ErrSkipExtract base_name)]).
Proof. reflexivity. Qed.

Lemma after_extraction_text text_output_dir base_name c text w :
  let output_txt_file := os_path_join text_output_dir (splitext_root base_name ++ py ".txt") in
  let cleaned := remove_undesired_patterns U (c :: text) in
  after_extraction U text_output_dir base_name (c :: text) w
  = (Ok tt,
     mkWorld (<[output_txt_file := Plain (CText cleaned)]> (fs w))
             (trace w ++ [Print (InfoStep 4); TextWritten output_txt_file cleaned;
                          Print (InfoSavedText base_name)])).
Proof.
  intros output_txt_file cleaned. unfold after_extraction.
  step ltac:(apply print_run). step ltac:(apply write_file_run).
  step ltac:(apply emit_run). rewrite print_run. unfold say. cbn [fs trace].
  rewrite <- !app_assoc. reflexivity.
Qed.

Lemma safe_after_extraction text_output_dir base_name text :
  safe (after_extraction U text_output_dir base_name text).
Proof.
  intros w. destruct text as [| c text].
  - rewrite after_extraction_empty. now eexists _, _.
  - rewrite after_extraction_text. now eexists _, _.
Qed.

(** *** One extracted file *)

Lemma process_pdf_outcome redacted_pdf_dir text_output_dir pdf_path w :
  let base_name := os_path_basename pdf_path in
  let redacted_pdf_path := os_path_join redacted_pdf_dir (py "redacted_" ++ base_name) in
  let output_txt_file := os_path_join text_output_dir (splitext_root base_name ++ py ".txt") in
  exists w',
    process_pdf U L redacted_pdf_dir text_output_dir pdf_path w = (Ok tt, w')
    /\ (texts w' = texts w
        \/ exists w1 w2 w3 c text,
             remove_pdf_metadata L pdf_path
               (say w [Print (InfoProcessing base_name); Print (InfoStep 1)]) = (Ok true, w1)
             /\ redact_pdf_content L pdf_path redacted_pdf_path REDACTION_PATTERNS
                  IS_CASE_SENSITIVE_PDF_REDACTION (say w1 [Print (InfoStep 2)]) = (Ok true, w2)
             /\ extract_text_from_pdf L redacted_pdf_path (say w2 [Print (InfoStep 3)])
                = (Ok (c :: text), w3)
             /\ texts w' = texts w
                           ++ [TextWritten output_txt_file
                                 (remove_undesired_patterns U (c :: text))]).
Proof.
  intros base_name redacted_pdf_path output_txt_file. unfold process_pdf.
  fold base_name. fold redacted_pdf_path.
  step ltac:(apply print_run). step ltac:(apply print_run). rewrite say_say. cbn [app].
  set (w0 := say w _).
  assert (T0 : texts w0 = texts w) by (unfold w0; rewrite texts_say; apply app_nil_r).
  destruct (safe_remove_metadata pdf_path w0) as (b1 & w1 & H1).
  pose proof (quiet_remove_metadata pdf_path w0) as T1. rewrite H1 in T1. cbn [snd] in T1.
  step ltac:(exact H1). destruct b1; cbn [negb].
  2: { eexists. split; [apply print_run |]. left.
       rewrite texts_say, T1, T0. apply app_nil_r. }
  step ltac:(apply print_run). set (w1' := say w1 _).
  assert (T1' : texts w1' = texts w).
  { unfold w1'. rewrite texts_say, T1, T0. apply app_nil_r. }
  destruct (safe_redact pdf_path redacted_pdf_path REDACTION_PATTERNS
              IS_CASE_SENSITIVE_PDF_REDACTION w1') as (b2 & w2 & H2).
  pose proof (quiet_redact pdf_path redacted_pdf_path REDACTION_PATTERNS
                IS_CASE_SENSITIVE_PDF_REDACTION w1') as T2.
  rewrite H2 in T2. cbn [snd] in T2.
  step ltac:(exact H2). destruct b2; cbn [negb].
  2: { eexists. split; [apply print_run |]. left.
       rewrite texts_say, T2, T1'. apply app_nil_r. }
  step ltac:(apply print_run). set (w2' := say w2 _).
  assert (T2' : texts w2' = texts w).
  { unfold w2'. rewrite texts_say, T2, T1'. apply app_nil_r. }
  destruct (safe_extract redacted_pdf_path w2') as (t & w3 & H3).
  pose proof (quiet_extract redacted_pdf_path w2') as T3. rewrite H3 in T3. cbn [snd] in T3.
  step ltac:(exact H3). destruct t as [| c text].
  - rewrite after_extraction_empty. eexists. split; [reflexivity |]. left.
    rewrite texts_say, T3, T2'. apply app_nil_r.
  - rewrite after_extraction_text. eexists. split; [reflexivity |]. right.
    exists w1, w2, w3, c, text. repeat split; try assumption.
    unfold texts in *. cbn [trace]. rewrite List.filter_app, T3, T2'. reflexivity.
Qed.

Lemma safe_process_pdf redacted_pdf_dir text_output_dir pdf_path :
  safe (process_pdf U L redacted_pdf_dir text_output_dir pdf_path).
Proof.
  intros w.
  destruct (process_pdf_outcome redacted_pdf_dir text_output_dir pdf_path w) as (w' & H & _).
  now exists tt, w'.
Qed.

(** The loop goes through every file, whatever happens to each. *)
Lemma safe_process_files redacted_pdf_dir text_output_dir pdf_files :
  safe (process_files U L redacted_pdf_dir text_output_dir pdf_files).
Proof.
  induction pdf_files as [| pdf_path rest IH]; cbn [process_files].
  - apply safe_ret.
  - apply safe_bind; [apply safe_process_pdf | intros _; exact IH].
Qed.

(** *** The archive *)

Lemma extract_members_readable dir members : forall acc w,
  forallb readable (pdf_members members) = true ->
  exists w', extract_members dir members acc w
             = (Ok (acc ++ List.map (extracted_path_of dir) (pdf_members members)), w')
             /\ texts w' = texts w.
Proof.
  induction members as [| m members IH]; intros acc w Hall.
  - exists w. simpl. now rewrite app_nil_r.
  - cbn [extract_members]. unfold pdf_members in *. cbn [List.filter] in *.
    destruct (lower_endswith_pdf (m_name m)).
    + cbn [forallb] in Hall. apply andb_true_iff in Hall as [Hm Hall].
      unfold readable in Hm. apply bool_decide_eq_true in Hm as [c Hc]. rewrite Hc.
      step ltac:(apply write_file_run). step ltac:(apply print_run).
      destruct (IH (acc ++ [os_path_join dir (os_path_basename (m_name m))])
                   (say (mkWorld (<[os_path_join dir (os_path_basename (m_name m)) := Plain c]> (fs w))
                                 (trace w))
                        [Print (InfoExtracted (os_path_basename (m_name m)))]) Hall)
        as (w' & Hrun & Ht).
      exists w'. split.
      * rewrite Hrun. cbn [List.map]. rewrite <- app_assoc. reflexivity.
      * rewrite Ht, texts_say. apply app_nil_r.
    + apply IH. exact Hall.
Qed.

Lemma extract_members_unreadable dir members : forall acc w,
  forallb readable (pdf_members members) = false ->
  exists w', extract_members dir members acc w = (Raised OtherError, w')
             /\ texts w' = texts w.
Proof.
  induction members as [| m members IH]; intros acc w Hall.
  - discriminate.
  - cbn [extract_members]. unfold pdf_members in *. cbn [List.filter] in *.
    destruct (lower_endswith_pdf (m_name m)).
    + cbn [forallb] in Hall. unfold readable at 1 in Hall.
      destruct (m_content m) as [c |].
      * rewrite bool_decide_eq_true_2 in Hall by eauto. cbn [andb] in Hall.
        step ltac:(apply write_file_run). step ltac:(apply print_run).
        destruct (IH (acc ++ [os_path_join dir (os_path_basename (m_name m))])
                     (say (mkWorld (<[os_path_join dir (os_path_basename (m_name m)) := Plain c]> (fs w))
                                   (trace w))
                          [Print (InfoExtracted (os_path_basename (m_name m)))]) Hall)
          as (w' & Hrun & Ht).
        exists w'. split; [exact Hrun |]. rewrite Ht, texts_say. apply app_nil_r.
      * exists w. split; reflexivity.
    + apply IH. exact Hall.
Qed.

Lemma open_zip_run p w members :
  fs w !! p = Some (Zip members) -> open_zip p w = (Ok members, w).
Proof.
  intros H. unfold open_zip. step ltac:(apply read_file_run; exact H). reflexivity.
Qed.

Lemma open_zip_bad p w c :
  fs w !! p = Some (Plain c) -> open_zip p w = (Raised BadZipFile, w).
Proof.
  intros H. unfold open_zip. step ltac:(apply read_file_run; exact H). reflexivity.
Qed.

(** The result of the job is decided by the archive alone. *)
Lemma workflow_run zip_file_path output_base_dir w :
  exists w',
    process_zip_file_workflow U L zip_file_path output_base_dir w
    = (Ok (job_succeeds w zip_file_path), w')
    /\ (job_succeeds w zip_file_path = false -> texts w' = texts w).
Proof.
  unfold process_zip_file_workflow, job_succeeds.
  destruct (fs w !! zip_file_path) as [[c | members] |] eqn:Ez.
  - eexists. split.
    + erewrite try_raised.
      2: { step ltac:(apply exists_run).
           rewrite bool_decide_eq_true_2 by (rewrite Ez; eauto). cbn [negb].
           erewrite bind_raised; [reflexivity | eapply open_zip_bad; exact Ez]. }
      cbv beta iota. step ltac:(apply print_run). apply ret_run.
    + intros _. rewrite texts_say. apply app_nil_r.
  - destruct (forallb readable (pdf_members members)) eqn:Er.
    + destruct (extract_members_readable
                  (os_path_join output_base_dir (py "extracted_pdfs")) members [] w Er)
        as (w1 & Hx & Tx).
      destruct (pdf_members members) as [| m ms] eqn:Ep.
      * exists (say w1 [Print WarnNoPdf]). split.
        -- erewrite try_ok; [reflexivity |].
           step ltac:(apply exists_run).
           rewrite bool_decide_eq_true_2 by (rewrite Ez; eauto). cbn [negb].
           step ltac:(apply open_zip_run; exact Ez).
           step ltac:(exact Hx). cbn [app List.map].
           step ltac:(apply print_run). apply ret_run.
        -- intros _. rewrite texts_say, Tx. apply app_nil_r.
      * cbn [app List.map] in Hx.
        destruct (safe_process_files
                    (os_path_join output_base_dir (py "redacted_pdfs"))
                    (os_path_join output_base_dir (py "text_output"))
                    (extracted_path_of (os_path_join output_base_dir (py "extracted_pdfs")) m
                       :: List.map (extracted_path_of
                                      (os_path_join output_base_dir (py "extracted_pdfs"))) ms)
                    w1) as ([] & w2 & Hp).
        exists (say w2 [Print InfoAllProcessed]). split; [| discriminate].
        erewrite try_ok; [reflexivity |].
        step ltac:(apply exists_run).
        rewrite bool_decide_eq_true_2 by (rewrite Ez; eauto). cbn [negb].
        step ltac:(apply open_zip_run; exact Ez).
        step ltac:(exact Hx). step ltac:(exact Hp).
        step ltac:(apply print_run). apply ret_run.
    + destruct (extract_members_unreadable
                  (os_path_join output_base_dir (py "extracted_pdfs")) members [] w Er)
        as (w1 & Hx & Tx).
      rewrite andb_false_r.
      exists (say w1 [Print ErrUnexpected]). split.
      * erewrite try_raised.
        2: { step ltac:(apply exists_run).
             rewrite bool_decide_eq_true_2 by (rewrite Ez; eauto). cbn [negb].
             step ltac:(apply open_zip_run; exact Ez).
             erewrite bind_raised; [reflexivity | exact Hx]. }
        cbv beta iota. step ltac:(apply print_run). apply ret_run.
      * intros _. rewrite texts_say, Tx. apply app_nil_r.
  - eexists. split.
    + erewrite try_ok; [reflexivity |].
      step ltac:(apply exists_run).
      rewrite bool_decide_eq_false_2 by (rewrite Ez; intros [x Hx]; discriminate).
      cbn [negb]. step ltac:(apply print_run). apply ret_run.
    + intros _. rewrite texts_say. apply app_nil_r.
Qed.

Lemma job_fails_iff w zip_file_path :
  job_succeeds w zip_file_path = false <->
  fs w !! zip_file_path = None
  \/ (exists c, fs w !! zip_file_path = Some (Plain c))
  \/ (exists members, fs w !! zip_file_path = Some (Zip members)
        /\ (pdf_members members = []
            \/ exists m, In m (pdf_members members) /\ m_content m = None)).
Proof.
  unfold job_succeeds. destruct (fs w !! zip_file_path) as [[c | members] |].
  - split; [intros _; right; left; eauto | reflexivity].
  - rewrite andb_false_iff, negb_false_iff, bool_decide_eq_true. split.
    + intros [Hnil | Hun]; right; right; exists members; (split; [reflexivity |]).
      * now left.
      * right. apply not_true_iff_false in Hun. rewrite List.forallb_forall in Hun.
        destruct (List.Exists_dec (fun m => m_content m = None) (pdf_members members))
          as [Hex | Hno].
        { intros m. destruct (m_content m); [right; discriminate | now left]. }
        { apply List.Exists_exists in Hex. exact Hex. }
        { exfalso. apply Hun. intros m Hm. unfold readable. apply bool_decide_eq_true.
          destruct (m_content m) eqn:E; [eauto |].
          exfalso. apply Hno. apply List.Exists_exists. eauto. }
    + intros [H | [[c H] | (ms & H & Hc)]]; try discriminate.
      injection H as <-. destruct Hc as [Hnil | (m & Hin & Hm)]; [now left | right].
      apply not_true_iff_false. rewrite List.forallb_forall. intros Hall.
      specialize (Hall m Hin). unfold readable in Hall.
      apply bool_decide_eq_true in Hall as [c Hc]. congruence.
  - split; [intros _; now left | reflexivity].
Qed.

End WithLibs.

(** C8. When rendering or recognising any page of a document raises,
    [extract_text_from_pdf] returns the empty text for the whole
    document, whatever the pages before gave; the caller, given the
    empty text, reports the failure and writes no text file. *)
Theorem extraction_error_gives_empty_text (U : Ucd) (L : Lib) (pdf_path : path) (w : World)
    (d : Document) (text_output_dir : path) (base_name : str) :
  fs w !! pdf_path = Some (Plain (CPdf d)) ->
  fitz_opens L d = true ->
  Exists (fun page => page_raises L page = true) (doc_pages d) ->
  exists w',
    extract_text_from_pdf L pdf_path w = (Ok [], w')
    /\ texts w' = texts w
    /\ after_extraction U text_output_dir base_name [] w'
       = (Ok tt, say w' [Print (ErrSkipExtract base_name)]).
Proof.
  intros Hp Hd Hex.
  destruct (extract_pages_raises L (doc_pages d) 0%nat [] (say w [Opened pdf_path]) Hex)
    as [w1 H1].
  destruct (extract_fails_empty L pdf_path w) as (w' & Hrun & Ht).
  - exists w1. erewrite bind_run; [exact H1 | now apply fitz_open_run].
  - exists w'. split; [exact Hrun |]. split; [exact Ht |]. reflexivity.
Qed.

(** C4, as the code has it.  The job reports failure exactly when the
    archive path does not exist, the file is not an archive, the
    archive holds no PDF member, or a PDF member cannot be read from
    the archive; a failed job writes no text file.  A file whose
    metadata removal, redaction or text extraction fails is skipped
    without a text file, the files after it are processed, and such
    failures do not change the result of the job. *)
Theorem job_fails_only_on_archive_errors (U : Ucd) (L : Lib)
    (zip_file_path output_base_dir : path) (w : World) :
  (exists w',
     process_zip_file_workflow U L zip_file_path output_base_dir w
     = (Ok (job_succeeds w zip_file_path), w')
     /\ (job_succeeds w zip_file_path = false -> texts w' = texts w))
  /\ (job_succeeds w zip_file_path = false <->
      fs w !! zip_file_path = None
      \/ (exists c, fs w !! zip_file_path = Some (Plain c))
      \/ (exists members, fs w !! zip_file_path = Some (Zip members)
            /\ (pdf_members members = []
                \/ exists m, In m (pdf_members members) /\ m_content m = None)))
  /\ (forall redacted_pdf_dir text_output_dir pdf_path rest w0,
        let base_name := os_path_basename pdf_path in
        let redacted_pdf_path := os_path_join redacted_pdf_dir (py "redacted_" ++ base_name) in
        let output_txt_file :=
          os_path_join text_output_dir (splitext_root base_name ++ py ".txt") in
        exists w1,
          process_pdf U L redacted_pdf_dir text_output_dir pdf_path w0 = (Ok tt, w1)
          /\ process_files U L redacted_pdf_dir text_output_dir (pdf_path :: rest) w0
             = process_files U L redacted_pdf_dir text_output_dir rest w1
          /\ (texts w1 = texts w0
              \/ exists v1 v2 v3 c text,
                   remove_pdf_metadata L pdf_path
                     (say w0 [Print (InfoProcessing base_name); Print (InfoStep 1)])
                   = (Ok true, v1)
                   /\ redact_pdf_content L pdf_path redacted_pdf_path REDACTION_PATTERNS
                        IS_CASE_SENSITIVE_PDF_REDACTION (say v1 [Print (InfoStep 2)])
                      = (Ok true, v2)
                   /\ extract_text_from_pdf L redacted_pdf_path (say v2 [Print (InfoStep 3)])
                      = (Ok (c :: text), v3)
                   /\ texts w1 = texts w0
                                 ++ [TextWritten output_txt_file
                                       (remove_undesired_patterns U (c :: text))])).
Proof.
  split; [apply workflow_run |]. split; [apply job_fails_iff |].
  intros redacted_pdf_dir text_output_dir pdf_path rest w0.
  destruct (process_pdf_outcome U L redacted_pdf_dir text_output_dir pdf_path w0)
    as (w1 & Hrun & Hout).
  exists w1. split; [exact Hrun |]. split; [| exact Hout].
  cbn [process_files]. now rewrite (bind_run _ _ _ _ _ Hrun).
Qed.

(** C4, as stated, fails: the archive exists, is a valid archive and
    holds a PDF member, yet the job reports failure, because the member
    is encrypted and reading it raises. *)
Lemma locked_member_fails_job :
  let w := world_with zip_path locked_zip in
  fs w !! zip_path = Some (Zip [mkMember (py "a.pdf") None])
  /\ pdf_members [mkMember (py "a.pdf") None] = [mkMember (py "a.pdf") None]
  /\ fst (process_zip_file_workflow ascii_ucd quiet_lib zip_path out_dir w) = Ok false.
Proof.
  intros w. split; [apply lookup_singleton_eq |]. split; [reflexivity |].
  destruct (workflow_run ascii_ucd quiet_lib zip_path out_dir w) as (w' & Hrun & _).
  rewrite Hrun. reflexivity.
Qed.

End WorkflowFacts.

(** ** The properties at sample inputs *)

Module Samples.
Import PostCleaner CleanerFacts PatternFacts RedactorFacts RedactionFacts WorkflowFacts.

Example uptodate_in_longer_word_untouched (U : Ucd) :
  re_sub_uptodate U (py "UpToDateX") = py "UpToDateX"
  /\ re_sub_uptodate U (py "xuptodate") = py "xuptodate"
  /\ re_sub_uptodate U (py "uptodate_2") = py "uptodate_2".
Proof. repeat split. Qed.

Example uptodate_any_casing_removed (U : Ucd) :
  re_sub_uptodate U (py "see UpToDate now") = py "see  now"
  /\ re_sub_uptodate U (py "UPTODATE, uptodate; upToDATE") = py ", ; "
  /\ re_sub_uptodate U (py "uptodate") = [].
Proof. repeat split. Qed.

Example redaction_patterns_generated :
  generated IS_CASE_SENSITIVE_PDF_REDACTION (firstn 2 REDACTION_PATTERNS)
  = [py "(?i)Ref"; py "(?i)Use\ of\ UpToDate\ is\ subject\ to\ the\ Terms\ of\ Use"]
  /\ length (generated IS_CASE_SENSITIVE_PDF_REDACTION REDACTION_PATTERNS) = 19%nat.
Proof. split; reflexivity. Qed.

(** The [AUTHORS] entry under both values of the global flag. *)
Lemma case_flag_sample :
  has_inline_flag LETTER_i (py "(?iu)AUTHORS:.*?(?:\n|$)") = true
  /\ py "(?u)AUTHORS:.*?(?:\n|$)"
     = embed_flags (carried (N.lor IGNORECASE UNICODE)) (py "AUTHORS:.*?(?:\n|$)")
  /\ LETTER_i ∉ flag_str (carried (N.lor IGNORECASE UNICODE)).
Proof.
  split.
  - exact (proj1 (case_flag_follows_global false authors_entry
                    (py "(?iu)AUTHORS:.*?(?:\n|$)") eq_refl) eq_refl).
  - exact (proj2 (case_flag_follows_global true authors_entry
                    (py "(?u)AUTHORS:.*?(?:\n|$)") eq_refl) eq_refl
                 (py "AUTHORS:.*?(?:\n|$)") (N.lor IGNORECASE UNICODE) eq_refl).
Defined.

(** A document without pages is copied. *)
Lemma copied_without_pages_sample :
  exists evs out_doc,
    redact_pdf_content quiet_lib in_pdf out_pdf REDACTION_PATTERNS false
      (world_with in_pdf (Plain (CPdf empty_doc)))
    = (Ok true,
       mkWorld (<[out_pdf := Plain (CPdf out_doc)]> (fs (world_with in_pdf (Plain (CPdf empty_doc)))))
               (trace (world_with in_pdf (Plain (CPdf empty_doc))) ++ evs))
    /\ (doc_pages empty_doc = [] -> out_doc = empty_doc /\ In (Copied in_pdf out_pdf) evs)
    /\ (doc_pages empty_doc <> [] ->
          out_doc = mkDoc (List.map (redacted_page quiet_lib (generated false REDACTION_PATTERNS))
                                    (doc_pages empty_doc))
                          (doc_metadata empty_doc)
          /\ out_doc <> empty_doc /\ In (Saved out_pdf) evs).
Proof.
  apply (copied_only_without_pages quiet_lib in_pdf out_pdf REDACTION_PATTERNS false
           (world_with in_pdf (Plain (CPdf empty_doc))) empty_doc).
  - reflexivity.
  - reflexivity.
  - discriminate.
Defined.

(** Redacting a file that is not there. *)
Lemma missing_input_sample :
  let r := redact_pdf_content quiet_lib in_pdf out_pdf REDACTION_PATTERNS false empty_world in
  fst r = Ok false
  /\ fs (snd r) = fs empty_world
  /\ fs (snd r) !! out_pdf = fs empty_world !! out_pdf
  /\ exists evs, trace (snd r) = trace empty_world ++ evs /\ List.filter is_opened evs = [].
Proof.
  apply (missing_input_leaves_output quiet_lib in_pdf out_pdf REDACTION_PATTERNS false empty_world).
  reflexivity.
Defined.

(** The second page of the document cannot be recognised: the text of
    the first page is lost with it. *)
Lemma extraction_error_sample :
  image_to_string quiet_lib (letter_page 1) = Some (py "text")
  /\ exists w',
       extract_text_from_pdf quiet_lib in_pdf (world_with in_pdf (Plain (CPdf two_page_doc)))
       = (Ok [], w')
       /\ texts w' = texts (world_with in_pdf (Plain (CPdf two_page_doc)))
       /\ after_extraction ascii_ucd (py "out/text_output") (py "in.pdf") [] w'
          = (Ok tt, say w' [Print (ErrSkipExtract (py "in.pdf"))]).
Proof.
  split; [reflexivity |].
  apply (extraction_error_gives_empty_text ascii_ucd quiet_lib in_pdf
           (world_with in_pdf (Plain (CPdf two_page_doc))) two_page_doc).
  - reflexivity.
  - reflexivity.
  - right. left. reflexivity.
Defined.

End Samples.

(* ================================================================== *)
(** * Further properties of the code *)
(* ================================================================== *)

(** ** More on the post-cleaner *)

Module CleanerMore.
Import PostCleaner CleanerFacts.

Section WithUcd.
Variable U : Ucd.

Lemma ci_prefix_equal lit : forall p rest,
  ci_equal p lit = true -> ci_prefix p (lit ++ rest) = Some rest.
Proof.
  induction lit as [| c lit IH]; intros [| a p] rest H; simpl in *; try discriminate.
  - reflexivity.
  - apply andb_true_iff in H as [Hc H]. rewrite Hc. now apply IH.
Qed.

Lemma digits_app year post :
  forallb (is_digit U) year = true -> digits U (length year) (year ++ post) = true.
Proof.
  induction year as [| c year IH]; simpl; intros H; [reflexivity |].
  apply andb_true_iff in H as [Hc H]. rewrite Hc. now apply IH.
Qed.

Lemma spaces_then_year_app ws year post :
  forallb is_space ws = true -> length year = 4%nat -> forallb (is_digit U) year = true ->
  spaces_then_year U (ws ++ year ++ post) = true.
Proof.
  intros Hws Hlen Hy. induction ws as [| c ws IH].
  - simpl app. destruct (year ++ post) eqn:E;
      (cbn [spaces_then_year]; rewrite <- E, <- Hlen, digits_app by exact Hy; reflexivity).
  - simpl in Hws. apply andb_true_iff in Hws as [Hc Hws].
    rewrite <- app_comm_cons. cbn [spaces_then_year]. rewrite Hc, (IH Hws).
    apply orb_true_r.
Qed.

Lemma marker_search_app pre rest :
  marker_at U rest = true -> marker_search U (pre ++ rest) = true.
Proof.
  intros H. induction pre as [| c pre IH].
  - cbn [app]. destruct rest; cbn [marker_search]; rewrite H; reflexivity.
  - rewrite <- app_comm_cons. cbn [marker_search]. rewrite IH. apply orb_true_r.
Qed.

Lemma marker_found pre lit ws year post :
  ci_equal marker_literal lit = true ->
  forallb is_space ws = true ->
  length year = 4%nat -> forallb (is_digit U) year = true ->
  marker_search U (pre ++ lit ++ ws ++ year ++ post) = true.
Proof.
  intros Hlit Hws Hlen Hy. apply marker_search_app. unfold marker_at.
  rewrite (ci_prefix_equal lit marker_literal _ Hlit).
  now apply spaces_then_year_app.
Qed.

(** *** Splitting and joining *)

Lemma split_on_nonempty sep s : split_on sep s <> [].
Proof.
  destruct s as [| c s]; simpl; [discriminate |].
  destruct (c =? sep); [discriminate |]. destruct (split_on sep s); discriminate.
Qed.

Lemma join_with_cons sep l ls :
  ls <> [] -> join_with sep (l :: ls) = l ++ sep ++ join_with sep ls.
Proof. destruct ls; [congruence | reflexivity]. Qed.

(** ["\n".join(text.split("\n"))] is [text]. *)
Lemma join_split s : join_with [NL] (split_on NL s) = s.
Proof.
  induction s as [| c s IH]; [reflexivity |].
  cbn [split_on]. destruct (N.eqb_spec c NL) as [-> | Hne].
  - rewrite join_with_cons by apply split_on_nonempty. now rewrite IH.
  - pose proof (split_on_nonempty NL s) as Hs.
    destruct (split_on NL s) as [| l ls] eqn:E; [congruence |].
    destruct ls as [| l' ls].
    + simpl in *. now rewrite IH.
    + rewrite join_with_cons by discriminate.
      rewrite join_with_cons in IH by discriminate.
      rewrite <- IH. reflexivity.
Qed.

Lemma join_with_weight ls :
  length (join_with [NL] ls) = Nat.pred (weight ls).
Proof.
  induction ls as [| l ls IH]; [reflexivity |].
  destruct ls as [| l' ls].
  - simpl. lia.
  - rewrite join_with_cons by discriminate. rewrite !length_app, IH. simpl. lia.
Qed.

(** *** The substitution never lengthens and is idempotent *)

Lemma sub_go_length s : forall prev k, (length (sub_go U prev k s) <= length s)%nat.
Proof.
  induction s as [| c s IH]; intros prev k; simpl; [lia |].
  destruct k as [| k].
  - destruct (token_here U prev (c :: s)).
    + specialize (IH (Some c) 7%nat). lia.
    + simpl. specialize (IH (Some c) 0%nat). lia.
  - specialize (IH (Some c) k). lia.
Qed.

(** After a word character no match starts. *)
Lemma token_here_after_word w s : is_word U w = true -> token_here U (Some w) s = false.
Proof.
  intros Hw. unfold token_here.
  destruct s as [| c s]; [apply andb_false_r |].
  destruct (is_word U c) eqn:Ec.
  - unfold at_boundary. simpl. now rewrite Hw, Ec.
  - rewrite classes_nonword_head; [apply andb_false_r | discriminate | auto | exact Ec].
Qed.

(** Behind a word character the classes see the same thing in a text
    and in its cleaned form. *)
Lemma classes_see_through cls : forall w s,
  (forall cl, cl ∈ cls -> cl ∈ uptodate_classes) ->
  is_word U w = true ->
  classes_then_boundary U cls (Some w) (sub_go U (Some w) 0 s)
  = classes_then_boundary U cls (Some w) s.
Proof.
  induction cls as [| cl cls IH]; intros w s Hsub Hw.
  - destruct s as [| c s]; [reflexivity |].
    cbn [sub_go]. now rewrite token_here_after_word.
  - destruct s as [| c s]; [reflexivity |].
    cbn [sub_go]. rewrite token_here_after_word by exact Hw.
    cbn [classes_then_boundary]. destruct (in_class cl c) eqn:Ec; [| reflexivity].
    cbn [andb]. apply IH.
    + intros cl' Hcl'. apply Hsub. now right.
    + eapply in_class_word; [apply Hsub; left | exact Ec].
Qed.

Lemma token_here_see_through prev c s :
  token_here U prev (c :: sub_go U (Some c) 0 s) = token_here U prev (c :: s).
Proof.
  unfold token_here. cbn [head]. f_equal.
  set (rest := List.tl uptodate_classes).
  change uptodate_classes with ((85, 117) :: rest).
  cbn [classes_then_boundary]. destruct (in_class (85, 117) c) eqn:Ec; [| reflexivity].
  cbn [andb]. apply classes_see_through.
  - intros cl Hcl. change uptodate_classes with ((85, 117) :: rest). now right.
  - eapply in_class_word; [| exact Ec]. left.
Qed.

Lemma sub_go_idempotent n : forall s prev,
  (length s <= n)%nat ->
  sub_go U prev 0 (sub_go U prev 0 s) = sub_go U prev 0 s.
Proof.
  induction n as [| n IH]; intros s prev Hn.
  - destruct s; [reflexivity | simpl in Hn; lia].
  - destruct s as [| c s]; [reflexivity |].
    cbn [sub_go]. destruct (token_here U prev (c :: s)) eqn:E.
    + destruct (token_here_inv U _ _ E) as (tok & post & Heq & Htok & _ & Hpost).
      pose proof (matches_classes_length _ _ Htok) as Hlen. simpl in Hlen.
      destruct tok as [| t tok]; [discriminate |].
      rewrite <- app_comm_cons in Heq. injection Heq as <- ->.
      injection Hlen as Hlen. rewrite <- Hlen, sub_go_skip.
      rewrite (sub_go_prev_irrelevant U _ prev post Hpost).
      apply IH. simpl in Hn. rewrite length_app in Hn. lia.
    + cbn [sub_go]. rewrite token_here_see_through, E. f_equal.
      apply IH. simpl in Hn. lia.
Qed.

(** *** An invariant of the loop: the output never outweighs the lines read *)

Lemma weight_app l1 l2 : weight (l1 ++ l2) = (weight l1 + weight l2)%nat.
Proof. induction l1 as [| l l1 IH]; simpl; [reflexivity | rewrite IH; lia]. Qed.

Lemma weight_removelast out : (weight (removelast out) <= weight out)%nat.
Proof.
  induction out as [| l out IH]; [simpl; lia |].
  destruct out as [| l' out]; [simpl; lia |].
  change (removelast (l :: l' :: out)) with (l :: removelast (l' :: out)).
  cbn [weight] in *. lia.
Qed.

Lemma weight_drop_le (ls : list str) i j :
  (i <= j)%nat -> (weight (drop j ls) <= weight (drop i ls))%nat.
Proof.
  revert i j. induction ls as [| l ls IH]; intros i j Hij.
  - rewrite !drop_nil. lia.
  - destruct i as [| i], j as [| j]; simpl; try lia.
    + specialize (IH 0%nat j ltac:(lia)). rewrite drop_0 in IH. lia.
    + apply IH. lia.
Qed.

Lemma loop_weight lines : forall fuel i out,
  (weight (snd (loop U fuel lines (i, out))) + 0 <= weight out + weight (drop i lines))%nat.
Proof.
  induction fuel as [| fuel IH]; intros i out; cbn [loop fst snd]; [lia |].
  destruct (Nat.ltb_spec i (length lines)) as [Hlt | Hge]; [| simpl; lia].
  destruct (lookup_lt_is_Some_2 lines i Hlt) as [line Hline].
  destruct (marker_search U line) eqn:Em.
  - rewrite (step_marker U _ _ _ _ Hline Em).
    etransitivity; [apply IH |].
    pose proof (weight_drop_le lines i (i + 3) ltac:(lia)).
    pose proof (weight_removelast out).
    destruct (pops lines i out); lia.
  - rewrite (step_plain U _ _ _ _ Hline Em).
    etransitivity; [apply IH |].
    rewrite weight_app. rewrite (drop_S _ _ _ Hline).
    replace (i + 1)%nat with (S i) by lia.
    pose proof (sub_go_length line None 0). unfold re_sub_uptodate. simpl. lia.
Qed.

End WithUcd.

(** X1. A line that holds, anywhere, the words [Copyright ©] in any
    letter case, then any amount of white space, then four digits, is a
    marker line. *)
Theorem marker_found_anywhere_any_case (U : Ucd) (pre lit ws year post : str) :
  ci_equal marker_literal lit = true ->
  forallb is_space ws = true ->
  length year = 4%nat ->
  forallb (is_digit U) year = true ->
  marker_search U (pre ++ lit ++ ws ++ year ++ post) = true.
Proof. apply marker_found. Qed.

(** X2. When no line of the text matches the marker, the result is the
    lines of the text, each with the token cut out, joined again: no
    line is dropped. *)
Theorem text_without_marker_keeps_every_line (U : Ucd) (text : str) :
  Forall (fun l => marker_search U l = false) (split_on NL text) ->
  remove_undesired_patterns U text
  = join_with [NL] (List.map (re_sub_uptodate U) (split_on NL text)).
Proof. apply remove_undesired_patterns_no_marker. Qed.

(** X3. A text without marker line and without whole-word occurrence of
    the token comes back unchanged. *)
Theorem clean_text_unchanged (U : Ucd) (text : str) :
  Forall (fun l => marker_search U l = false) (split_on NL text) ->
  Forall (fun l => forall pre tok post, l = pre ++ tok ++ post -> ~ whole_word U pre tok post)
         (split_on NL text) ->
  remove_undesired_patterns U text = text.
Proof.
  intros Hm Ht. rewrite remove_undesired_patterns_no_marker by exact Hm.
  rewrite <- (join_split text) at 2. f_equal.
  induction Ht as [| l ls Hl Hls IH]; [reflexivity |].
  apply Forall_cons in Hm as [_ Hm]. simpl.
  rewrite (re_sub_uptodate_untouched U l Hl), (IH Hm). reflexivity.
Qed.

(** X4. Cutting the token out of a line twice gives the same as once:
    no whole-word occurrence is left or created by the removal. *)
Theorem re_sub_uptodate_idempotent (U : Ucd) (line : str) :
  re_sub_uptodate U (re_sub_uptodate U line) = re_sub_uptodate U line.
Proof. unfold re_sub_uptodate. apply (sub_go_idempotent U (length line)). lia. Qed.

(** X5. The cleaned text is never longer than the text. *)
Theorem cleaned_text_not_longer (U : Ucd) (text : str) :
  (length (remove_undesired_patterns U text) <= length text)%nat.
Proof.
  unfold remove_undesired_patterns.
  rewrite <- (join_split text) at 3. rewrite !join_with_weight.
  pose proof (loop_weight U (split_on NL text) (length (split_on NL text)) 0 []) as H.
  rewrite drop_0 in H. simpl in H. lia.
Qed.

End CleanerMore.

(** ** More on the redactor *)

Module RedactorMore.
Import PatternFacts RedactorFacts RedactionFacts.

Lemma same_key_not_lt s r k :
  same_key s k = true -> same_key r k = true -> key_lt s r = false.
Proof.
  unfold same_key. rewrite !andb_true_iff, !Qeq_bool_iff.
  intros [Hy Hx] [Hy' Hx']. apply not_true_iff_false. rewrite key_lt_spec.
  intros [H | [_ H]].
  - rewrite Hy, Hy' in H. apply (Qlt_irrefl _ H).
  - rewrite Hx, Hx' in H. apply (Qlt_irrefl _ H).
Qed.

Lemma insert_sorted_filter k r l :
  List.filter (fun x => same_key x k) (insert_sorted r l)
  = List.filter (fun x => same_key x k) (r :: l).
Proof.
  induction l as [| s l IH]; [reflexivity |].
  cbn [insert_sorted]. destruct (key_lt s r) eqn:E; [| reflexivity].
  cbn [List.filter] in *. rewrite IH.
  destruct (same_key s k) eqn:Es, (same_key r k) eqn:Er; try reflexivity.
  rewrite (same_key_not_lt s r k Es Er) in E. discriminate.
Qed.

Lemma doc_save_same d p w : doc_save d p p w = (Raised OtherError, w).
Proof. unfold doc_save. now rewrite bool_decide_eq_true_2. Qed.

Lemma shutil_copy_same p w : shutil_copy p p w = (Raised OtherError, w).
Proof. unfold shutil_copy. now rewrite bool_decide_eq_true_2. Qed.

Lemma redacted_page_from L pats page : redacted_from L pats page (redacted_page L pats page).
Proof. repeat split. Qed.

Lemma redacted_pages_from L pats pages :
  Forall2 (redacted_from L pats) pages (List.map (redacted_page L pats) pages).
Proof.
  induction pages as [| page pages IH]; constructor; [apply redacted_page_from | exact IH].
Qed.

Lemma added_annotations_count L pats pages :
  N.of_nat (added_annotations pages (List.map (redacted_page L pats) pages))
  = count_redactions L pats pages.
Proof.
  induction pages as [| page pages IH]; [reflexivity |].
  cbn [List.map added_annotations count_redactions]. rewrite <- IH.
  unfold redacted_page at 1. unfold apply_redactions. cbn [page_redacted].
  rewrite length_app. cbn [length]. rewrite length_map. lia.
Qed.

Section WithLib.
Variable L : Lib.

(** The call on an input that is there but cannot be redacted. *)
Lemma redact_refused input output items cs w f :
  fs w !! input = Some f ->
  redaction_succeeds L w input output = false ->
  exists evs, redact_pdf_content L input output items cs w = (Ok false, say w evs).
Proof.
  intros Hin Hno. unfold redaction_succeeds in Hno. rewrite Hin in Hno.
  unfold redact_pdf_content.
  step ltac:(apply print_run). step ltac:(apply exists_run).
  cbn [say fs]. rewrite bool_decide_eq_true_2 by (rewrite Hin; eauto). cbn [negb].
  set (w0 := say w _).
  assert (Hin0 : fs w0 !! input = Some f) by exact Hin.
  destruct f as [[d | t | raw] | ms].
  1: destruct (fitz_opens L d) eqn:Eo.
  1: { cbn [andb] in Hno. apply negb_false_iff, bool_decide_eq_true in Hno. subst output.
       eexists. erewrite try_raised.
       2: { step ltac:(apply fitz_open_run; [exact Hin0 | exact Eo]).
            step ltac:(apply prepare_patterns_run).
            step ltac:(apply redact_pages_run).
            destruct (0 <? _).
            - erewrite bind_raised; [reflexivity | apply doc_save_same].
            - erewrite bind_raised; [reflexivity | apply shutil_copy_same]. }
       cbv beta. step ltac:(apply print_run). rewrite ret_run.
       unfold w0, say. cbn [fs trace]. rewrite <- !app_assoc. reflexivity. }
  all: eexists; erewrite try_raised;
    [| erewrite bind_raised; [reflexivity |];
       apply fitz_open_fails; intros d' Hd'; rewrite Hin0 in Hd'; congruence];
    cbv beta; step ltac:(apply print_run); rewrite ret_run;
    unfold w0; rewrite say_say; reflexivity.
Qed.

Lemma redact_result input output items cs w :
  exists w',
    redact_pdf_content L input output items cs w
    = (Ok (redaction_succeeds L w input output), w')
    /\ (redaction_succeeds L w input output = false -> fs w' = fs w)
    /\ (forall p, p <> output -> fs w' !! p = fs w !! p).
Proof.
  destruct (fs w !! input) as [f |] eqn:Hin.
  - destruct (redaction_succeeds L w input output) eqn:Es.
    + unfold redaction_succeeds in Es. rewrite Hin in Es.
      destruct f as [[d | t | raw] | ms]; try discriminate.
      apply andb_true_iff in Es as [Eo Hne].
      apply negb_true_iff, bool_decide_eq_false in Hne.
      pose proof (redact_opened L input output items cs w d Hin Eo Hne) as Hrun.
      cbv zeta in Hrun. rewrite Hrun.
      destruct (0 <? _); eexists; (split; [reflexivity |]); (split; [discriminate |]);
        intros p Hp; cbn [fs]; now rewrite lookup_insert_ne.
    + destruct (redact_refused input output items cs w f Hin Es) as [evs Hrun].
      exists (say w evs). rewrite Hrun. repeat split.
  - exists (say w [Print (InfoAttemptRedaction (os_path_basename input));
                   Print (ErrInputNotFound (os_path_basename input))]).
    unfold redaction_succeeds. rewrite Hin.
    rewrite (redact_missing_input L input output items cs w Hin). repeat split.
Qed.

End WithLib.

(** X6. The inline flag group of a compiled entry is made of [i] when
    the global flag is case-insensitive, then [s], [m], [u] for the
    entry's DOTALL, MULTILINE and UNICODE flags, in this order; any
    other flag of the entry (VERBOSE, ASCII, ...) is dropped, and
    without letter the pattern is passed as it is. *)
Theorem compiled_entry_flag_letters (case_sensitive : bool) (p : str) (f : N) :
  search_pattern case_sensitive (ERe p f)
  = Some (with_letters
            ((if case_sensitive then [] else py "i")
             ++ (if has_flag f DOTALL then py "s" else [])
             ++ (if has_flag f MULTILINE then py "m" else [])
             ++ (if has_flag f UNICODE then py "u" else []))
            p).
Proof.
  cbn [search_pattern]. unfold embed_flags, with_letters.
  rewrite flag_str_pattern_flags, has_flag_DOTALL, has_flag_MULTILINE, has_flag_UNICODE.
  match goal with |- Some (match ?letters with _ => _ end) = _ => destruct letters end;
    reflexivity.
Qed.

(** X7. The sort of the match rectangles is stable: the rectangles
    that share a sort key come out in the order they were found. *)
Theorem sorted_by_key_stable (k : Rect) (l : list Rect) :
  List.filter (fun r => same_key r k) (sorted_by_key l)
  = List.filter (fun r => same_key r k) l.
Proof.
  induction l as [| r l IH]; [reflexivity |].
  cbn [sorted_by_key foldr]. fold (sorted_by_key l).
  rewrite insert_sorted_filter. cbn [List.filter]. now rewrite IH.
Qed.

(** X8. [redact_pdf_content] never raises.  It returns [True] exactly
    when the input is a document that opens and the output path is not
    the input path; when it returns [False] no file has changed, and in
    every case no path other than the output path changes. *)
Theorem redaction_result_and_footprint (L : Lib) (input output : path) (items : list Entry)
    (case_sensitive : bool) (w : World) :
  exists w',
    redact_pdf_content L input output items case_sensitive w
    = (Ok (redaction_succeeds L w input output), w')
    /\ (redaction_succeeds L w input output = false -> fs w' = fs w)
    /\ (forall p, p <> output -> fs w' !! p = fs w !! p).
Proof. apply redact_result. Qed.

(** X9. A successful redaction keeps the shape of the document: the
    metadata, the number of pages and the size of each page are those
    of the input, and a page is touched by its new redactions only: it
    keeps the redactions it had and gets after them the header, the
    footer and the surviving matches. *)
Theorem redaction_keeps_document_shape (L : Lib) (input output : path) (items : list Entry)
    (case_sensitive : bool) (w : World) (d : Document) :
  fs w !! input = Some (Plain (CPdf d)) ->
  fitz_opens L d = true ->
  output <> input ->
  exists out_doc,
    fs (snd (redact_pdf_content L input output items case_sensitive w)) !! output
    = Some (Plain (CPdf out_doc))
    /\ doc_metadata out_doc = doc_metadata d
    /\ length (doc_pages out_doc) = length (doc_pages d)
    /\ Forall2 (redacted_from L (generated case_sensitive items))
               (doc_pages d) (doc_pages out_doc).
Proof.
  intros Hin Hopen Hne.
  pose proof (redact_opened L input output items case_sensitive w d Hin Hopen Hne) as Hrun.
  cbv zeta in Hrun. rewrite Hrun.
  destruct (N.ltb_spec 0 (count_redactions L (generated case_sensitive items) (doc_pages d)))
    as [Hpos | Hzero]; cbn [snd fs]; rewrite lookup_insert_eq; eexists; (split; [reflexivity |]).
  - cbn [doc_metadata doc_pages]. split; [reflexivity |]. split; [apply length_map |].
    apply redacted_pages_from.
  - assert (Hnil : doc_pages d = []).
    { apply (count_redactions_zero L (generated case_sensitive items)). lia. }
    rewrite Hnil. repeat split. constructor.
Qed.

(** X10. The number of redactions that a successful call reports is
    the number of annotations it added to the pages of the document. *)
Theorem reported_count_is_annotations_added (L : Lib) (input output : path)
    (items : list Entry) (case_sensitive : bool) (w : World) (d : Document) :
  fs w !! input = Some (Plain (CPdf d)) ->
  fitz_opens L d = true ->
  output <> input ->
  doc_pages d <> [] ->
  exists out_doc before,
    fs (snd (redact_pdf_content L input output items case_sensitive w)) !! output
    = Some (Plain (CPdf out_doc))
    /\ trace (snd (redact_pdf_content L input output items case_sensitive w))
       = trace w ++ before
         ++ [Saved output;
             Print (InfoRedacted
                      (N.of_nat (added_annotations (doc_pages d) (doc_pages out_doc))))].
Proof.
  intros Hin Hopen Hne Hpages.
  pose proof (redact_opened L input output items case_sensitive w d Hin Hopen Hne) as Hrun.
  cbv zeta in Hrun. rewrite Hrun.
  destruct (N.ltb_spec 0 (count_redactions L (generated case_sensitive items) (doc_pages d)))
    as [Hpos | Hzero].
  - cbn [snd fs trace]. rewrite lookup_insert_eq. eexists _, _. split; [reflexivity |].
    cbn [doc_pages]. rewrite added_annotations_count. reflexivity.
  - exfalso. apply Hpages.
    apply (count_redactions_zero L (generated case_sensitive items)). lia.
Qed.

End RedactorMore.

(** ** Metadata removal and text extraction *)

Module FilesMore.
Import PatternFacts RedactorFacts RedactionFacts WorkflowFacts.

(** *** Computations that leave the files alone *)

Lemma keeps_ret {A} (a : A) : keeps_files (mret a : M A).
Proof. intros w. reflexivity. Qed.

Lemma keeps_raise {A} e : keeps_files (raise e : M A).
Proof. intros w. reflexivity. Qed.

Lemma keeps_emit e : keeps_files (emit e).
Proof. intros w. reflexivity. Qed.

Lemma keeps_print m : keeps_files (print m).
Proof. intros w. reflexivity. Qed.

Lemma keeps_read_file p : keeps_files (read_file p).
Proof. intros w. unfold read_file. now destruct (fs w !! p). Qed.

Lemma keeps_bind {A B} (m : M A) (k : A -> M B) :
  keeps_files m -> (forall a, keeps_files (k a)) -> keeps_files (m ≫= k).
Proof.
  intros Hm Hk w. unfold mbind, M_bind. specialize (Hm w).
  destruct (m w) as [[a | e] w1]; simpl in Hm.
  - rewrite (Hk a w1). exact Hm.
  - exact Hm.
Qed.

Lemma keeps_try {A} (m : M A) h :
  keeps_files m -> (forall e, keeps_files (h e)) -> keeps_files (try_except m h).
Proof.
  intros Hm Hh w. unfold try_except. specialize (Hm w).
  destruct (m w) as [[a | e] w1]; simpl in Hm.
  - exact Hm.
  - rewrite (Hh e w1). exact Hm.
Qed.

Create HintDb keeps.
#[local] Hint Resolve keeps_ret keeps_raise keeps_emit keeps_print keeps_read_file : keeps.
#[local] Hint Extern 2 (keeps_files (_ ≫= _)) => apply keeps_bind; [| intros ?] : keeps.
#[local] Hint Extern 2 (keeps_files (try_except _ _)) => apply keeps_try; [| intros ?] : keeps.

Section WithLib.
Variable L : Lib.

Lemma keeps_fitz_open p : keeps_files (fitz_open L p).
Proof.
  unfold fitz_open. apply keeps_bind; [auto with keeps |].
  intros [[d | t | raw] | ms]; auto with keeps.
  destruct (fitz_opens L d); auto with keeps.
Qed.

Lemma keeps_extract_pages pages : forall n text, keeps_files (extract_pages L n pages text).
Proof.
  induction pages as [| page pages IH]; intros n text; cbn [extract_pages].
  - auto with keeps.
  - destruct (pixmap_n L page) as [c |]; [| auto with keeps].
    destruct (mode_of c); [| auto with keeps].
    destruct (image_to_string L page); auto with keeps.
Qed.

Lemma keeps_extract p : keeps_files (extract_text_from_pdf L p).
Proof.
  unfold extract_text_from_pdf. apply keeps_try; [| auto with keeps].
  apply keeps_bind; [apply keeps_fitz_open | intros doc; apply keeps_extract_pages].
Qed.

(** *** The text of a document whose pages do not raise *)

Lemma extract_pages_run pages : forall n text w,
  Forall (fun page => page_raises L page = false) pages ->
  exists evs,
    extract_pages L n pages text w = (Ok (text ++ flat_map (page_text L) pages), say w evs)
    /\ ~ In (Print ErrExtract) evs.
Proof.
  induction pages as [| page pages IH]; intros n text w Hall.
  - exists []. rewrite say_nil. simpl. rewrite app_nil_r. split; [reflexivity | intros []].
  - apply Forall_cons in Hall as [Hp Hall]. cbn [extract_pages flat_map].
    unfold page_raises in Hp. unfold page_text at 1.
    destruct (pixmap_n L page) as [c |]; [| discriminate].
    destruct (mode_of c) as [mode |].
    + destruct (image_to_string L page) as [t |]; [| discriminate].
      destruct (IH (S n) (text ++ t ++ [NL]) w Hall) as (evs & Hrun & Hno).
      exists evs. rewrite Hrun. rewrite <- !app_assoc. split; [reflexivity | exact Hno].
    + destruct (IH (S n) text (say w [Print (WarnChannels c (n + 1))]) Hall)
        as (evs & Hrun & Hno).
      exists (Print (WarnChannels c (n + 1)) :: evs).
      step ltac:(apply print_run). rewrite Hrun, say_say. split; [reflexivity |].
      intros [H | H]; [discriminate | contradiction].
Qed.

Lemma extract_run p w d :
  fs w !! p = Some (Plain (CPdf d)) -> fitz_opens L d = true ->
  Forall (fun page => page_raises L page = false) (doc_pages d) ->
  exists evs,
    extract_text_from_pdf L p w = (Ok (flat_map (page_text L) (doc_pages d)), say w evs)
    /\ ~ In (Print ErrExtract) evs.
Proof.
  intros Hp Hd Hall.
  destruct (extract_pages_run (doc_pages d) 0%nat [] (say w [Opened p]) Hall)
    as (evs & Hrun & Hno).
  exists (Opened p :: evs). split.
  - unfold extract_text_from_pdf. erewrite try_ok; [reflexivity |].
    step ltac:(apply fitz_open_run; [exact Hp | exact Hd]).
    rewrite Hrun, say_say. reflexivity.
  - intros [H | H]; [discriminate | contradiction].
Qed.

Lemma extract_unopenable p w :
  openable L w p = false ->
  extract_text_from_pdf L p w = (Ok [], say w [Print ErrExtract]).
Proof.
  intros H. unfold extract_text_from_pdf. erewrite try_raised.
  2: { erewrite bind_raised; [reflexivity |]. apply fitz_open_fails.
       intros d Hd. unfold openable in H. now rewrite Hd in H. }
  cbv beta. step ltac:(apply print_run). apply ret_run.
Qed.

Lemma unsupported_page_text page :
  unsupported L page = true -> page_raises L page = false /\ page_text L page = [].
Proof.
  unfold unsupported, page_raises, page_text.
  destruct (pixmap_n L page) as [c |]; [| discriminate].
  destruct (mode_of c); simpl; [discriminate | auto].
Qed.

(** *** [remove_pdf_metadata] *)

Lemma remove_metadata_run p w d :
  fs w !! p = Some (Plain (CPdf d)) -> pypdf2_reads L d = true ->
  remove_pdf_metadata L p w
  = (Ok true,
     mkWorld (<[p := Plain (CPdf (mkDoc (doc_pages d) []))]> (delete (temp_path_of p) (fs w)))
             (trace w ++ [Print InfoMetadataRemoved])).
Proof.
  intros Hp Hd. unfold remove_pdf_metadata. erewrite try_ok; [reflexivity |].
  step ltac:(apply read_file_run; exact Hp). rewrite Hd. fold (temp_path_of p).
  step ltac:(apply write_file_run).
  erewrite bind_run.
  2: { unfold os_replace. cbn [fs trace]. rewrite lookup_insert_eq. reflexivity. }
  cbv beta. rewrite delete_insert_eq.
  step ltac:(apply print_run). reflexivity.
Qed.

Lemma remove_metadata_refused p w :
  metadata_removable L w p = false ->
  remove_pdf_metadata L p w = (Ok false, say w [Print ErrMetadata]).
Proof.
  intros H. unfold metadata_removable in H. unfold remove_pdf_metadata.
  destruct (fs w !! p) as [f |] eqn:Hp.
  - erewrite try_raised.
    2: { step ltac:(apply read_file_run; exact Hp).
         destruct f as [[d | t | raw] | ms]; try reflexivity. now rewrite H. }
    cbv beta. step ltac:(apply print_run). apply ret_run.
  - erewrite try_raised.
    2: { erewrite bind_raised; [reflexivity | now apply read_file_missing]. }
    cbv beta. step ltac:(apply print_run). apply ret_run.
Qed.

End WithLib.

Lemma replace_go_absent old new s :
  contains old s = false -> replace_go old new 0 s = s.
Proof.
  induction s as [| c s IH]; intros H; [reflexivity |].
  cbn [contains] in H. apply orb_false_iff in H as [Hs H].
  cbn [replace_go]. rewrite Hs. f_equal. now apply IH.
Qed.

(** X11. [remove_pdf_metadata] never raises.  It returns [True] exactly
    when the file is a document that PyPDF2 accepts; when it returns
    [False] (missing file, other content, rejected document) no file
    has changed. *)
Theorem metadata_removal_result (L : Lib) (file_path : path) (w : World) :
  exists w',
    remove_pdf_metadata L file_path w = (Ok (metadata_removable L w file_path), w')
    /\ (metadata_removable L w file_path = false -> fs w' = fs w).
Proof.
  destruct (metadata_removable L w file_path) eqn:E.
  - unfold metadata_removable in E.
    destruct (fs w !! file_path) as [[[d | t | raw] | ms] |] eqn:Hp; try discriminate.
    eexists. rewrite (remove_metadata_run L file_path w d Hp E). split; [reflexivity | discriminate].
  - eexists. rewrite (remove_metadata_refused L file_path w E). split; reflexivity.
Qed.

(** X12. After a successful [remove_pdf_metadata] the file holds the
    same pages with empty metadata; the temporary path, when it is not
    the path of the file, holds nothing, whatever it held before; every
    other path is as it was. *)
Theorem metadata_removal_effect (L : Lib) (file_path : path) (w : World) (d : Document) :
  fs w !! file_path = Some (Plain (CPdf d)) ->
  pypdf2_reads L d = true ->
  let w' := snd (remove_pdf_metadata L file_path w) in
  fst (remove_pdf_metadata L file_path w) = Ok true
  /\ fs w' !! file_path = Some (Plain (CPdf (mkDoc (doc_pages d) [])))
  /\ (temp_path_of file_path <> file_path -> fs w' !! temp_path_of file_path = None)
  /\ (forall p, p <> file_path -> p <> temp_path_of file_path -> fs w' !! p = fs w !! p).
Proof.
  intros Hp Hd w'. unfold w'. rewrite (remove_metadata_run L file_path w d Hp Hd).
  cbn [fst snd fs]. split; [reflexivity |]. split; [apply lookup_insert_eq |]. split.
  - intros Hne. rewrite lookup_insert_ne by congruence. apply lookup_delete_eq.
  - intros p Hp1 Hp2. rewrite lookup_insert_ne by congruence.
    rewrite lookup_delete_ne by congruence. reflexivity.
Qed.

(** X13. When the path holds no [.pdf] in lower case (an upper-case
    extension, say), the temporary path is the path itself: the
    document is rewritten in place and no other path changes. *)
Theorem metadata_removal_in_place (L : Lib) (file_path : path) (w : World) (d : Document) :
  contains (py ".pdf") file_path = false ->
  fs w !! file_path = Some (Plain (CPdf d)) ->
  pypdf2_reads L d = true ->
  temp_path_of file_path = file_path
  /\ remove_pdf_metadata L file_path w
     = (Ok true,
        mkWorld (<[file_path := Plain (CPdf (mkDoc (doc_pages d) []))]> (fs w))
                (trace w ++ [Print InfoMetadataRemoved])).
Proof.
  intros Hc Hp Hd.
  assert (Ht : temp_path_of file_path = file_path).
  { unfold temp_path_of, replace. now apply replace_go_absent. }
  split; [exact Ht |].
  rewrite (remove_metadata_run L file_path w d Hp Hd), Ht, insert_delete_eq. reflexivity.
Qed.

(** X14. When no page of a document that opens raises, the text is the
    recognised text of the pages with a handled number of channels,
    each followed by a newline, in page order; no extraction error is
    printed and no file changes. *)
Theorem extracted_text_of_pages (L : Lib) (pdf_path : path) (w : World) (d : Document) :
  fs w !! pdf_path = Some (Plain (CPdf d)) ->
  fitz_opens L d = true ->
  Forall (fun page => page_raises L page = false) (doc_pages d) ->
  exists evs,
    extract_text_from_pdf L pdf_path w
    = (Ok (flat_map (page_text L) (doc_pages d)), say w evs)
    /\ ~ In (Print ErrExtract) evs.
Proof. apply extract_run. Qed.

(** X15. [extract_text_from_pdf] never raises and never changes a
    file; on a path that holds no document that opens it returns the
    empty text. *)
Theorem extraction_total_and_read_only (L : Lib) (pdf_path : path) (w : World) :
  exists text w',
    extract_text_from_pdf L pdf_path w = (Ok text, w')
    /\ fs w' = fs w
    /\ (openable L w pdf_path = false -> text = []).
Proof.
  destruct (safe_extract L pdf_path w) as (text & w' & Hrun).
  exists text, w'. split; [exact Hrun |]. split.
  - pose proof (keeps_extract L pdf_path w) as Hk. now rewrite Hrun in Hk.
  - intros Hno. rewrite (extract_unopenable L pdf_path w Hno) in Hrun. congruence.
Qed.

(** X16. A document whose pages all render with a number of channels
    other than 1, 3 or 4 (or that has no page) gives the empty text
    without any error; the caller cannot tell it from a failure and
    skips the file. *)
Theorem unsupported_pages_give_empty_text (U : Ucd) (L : Lib) (pdf_path : path) (w : World)
    (d : Document) (text_output_dir : path) (base_name : str) :
  fs w !! pdf_path = Some (Plain (CPdf d)) ->
  fitz_opens L d = true ->
  forallb (unsupported L) (doc_pages d) = true ->
  exists evs,
    extract_text_from_pdf L pdf_path w = (Ok [], say w evs)
    /\ ~ In (Print ErrExtract) evs
    /\ after_extraction U text_output_dir base_name [] (say w evs)
       = (Ok tt, say (say w evs) [Print (ErrSkipExtract base_name)]).
Proof.
  intros Hp Hd Hall. rewrite List.forallb_forall in Hall.
  assert (Hr : Forall (fun page => page_raises L page = false) (doc_pages d)).
  { apply List.Forall_forall. intros page Hin. now apply unsupported_page_text, Hall. }
  assert (Ht : flat_map (page_text L) (doc_pages d) = []).
  { induction (doc_pages d) as [| page pages IH]; [reflexivity |].
    cbn [flat_map]. rewrite (proj2 (unsupported_page_text L page (Hall page (or_introl eq_refl)))).
    apply IH.
    - intros x Hx. apply Hall. now right.
    - now apply Forall_cons in Hr as [_ Hr]. }
  destruct (extract_run L pdf_path w d Hp Hd Hr) as (evs & Hrun & Hno).
  exists evs. rewrite Hrun, Ht. repeat split. exact Hno.
Qed.

End FilesMore.

(** ** More on the workflow, and the program *)

Module WorkflowMore.
Import PostCleaner PatternFacts RedactorFacts RedactionFacts WorkflowFacts.

(** *** Paths *)

Lemma basename_go_no_slash name : forall cur,
  no_slash name = true -> basename_go cur name = cur ++ name.
Proof.
  induction name as [| c name IH]; intros cur H; simpl.
  - now rewrite app_nil_r.
  - simpl in H. apply andb_true_iff in H as [Hc H].
    apply negb_true_iff in Hc. rewrite Hc, IH by exact H.
    now rewrite <- app_assoc.
Qed.

Lemma basename_go_slash folder : forall cur rest,
  basename_go cur (folder ++ SLASH :: rest) = basename_go [] rest.
Proof.
  induction folder as [| c folder IH]; intros cur rest; simpl.
  - reflexivity.
  - destruct (c =? SLASH); apply IH.
Qed.

Lemma basename_of_member folder name :
  no_slash name = true -> os_path_basename (folder ++ [SLASH] ++ name) = name.
Proof.
  intros H. unfold os_path_basename. cbn [app].
  rewrite basename_go_slash. now apply basename_go_no_slash.
Qed.

Lemma rfind_dot_none ext : no_dot ext = true -> rfind_dot ext = None.
Proof.
  induction ext as [| c ext IH]; intros H; [reflexivity |].
  simpl in H. apply andb_true_iff in H as [Hc H]. apply negb_true_iff in Hc.
  simpl. now rewrite IH, Hc.
Qed.

Lemma rfind_dot_last stem ext :
  no_dot ext = true -> rfind_dot (stem ++ DOT :: ext) = Some (length stem).
Proof.
  intros H. induction stem as [| c stem IH]; simpl.
  - now rewrite rfind_dot_none.
  - now rewrite IH.
Qed.

Lemma splitext_root_stem stem ext :
  some_non_dot stem = true -> no_dot ext = true ->
  splitext_root (stem ++ [DOT] ++ ext) = stem.
Proof.
  intros Hs He. unfold splitext_root. cbn [app]. rewrite rfind_dot_last by exact He.
  rewrite take_app_length.
  assert (Hf : forallb (fun c => c =? DOT) stem = false).
  { apply not_true_iff_false. intros Hall. rewrite List.forallb_forall in Hall.
    unfold some_non_dot in Hs. apply List.existsb_exists in Hs as (c & Hin & Hc).
    rewrite (Hall c Hin) in Hc. discriminate. }
  now rewrite Hf.
Qed.

(** *** The extraction of the members *)

Lemma extract_members_files dir members : forall acc w,
  forallb readable (pdf_members members) = true ->
  exists evs,
    extract_members dir members acc w
    = (Ok (acc ++ List.map (extracted_path_of dir) (pdf_members members)),
       mkWorld (extracted_files dir members (fs w)) (trace w ++ evs)).
Proof.
  unfold extracted_files, write_members.
  induction members as [| m members IH]; intros acc w Hall.
  - exists []. simpl. rewrite !app_nil_r. now destruct w.
  - cbn [extract_members]. unfold pdf_members in *. cbn [List.filter] in *.
    destruct (lower_endswith_pdf (m_name m)).
    + cbn [forallb] in Hall. apply andb_true_iff in Hall as [Hm Hall].
      unfold readable in Hm. apply bool_decide_eq_true in Hm as [c Hc].
      cbn [foldl List.map]. rewrite Hc.
      step ltac:(apply write_file_run). step ltac:(apply print_run).
      destruct (IH (acc ++ [os_path_join dir (os_path_basename (m_name m))])
                   (say (mkWorld (<[os_path_join dir (os_path_basename (m_name m)) := Plain c]> (fs w))
                                 (trace w))
                        [Print (InfoExtracted (os_path_basename (m_name m)))]) Hall)
        as (evs & Hrun).
      rewrite Hrun. eexists. unfold say, extracted_path_of. cbn [fs trace].
      rewrite <- !app_assoc. reflexivity.
    + apply IH. exact Hall.
Qed.

Lemma write_members_other dir selected : forall files p,
  Forall (fun m => extracted_path_of dir m <> p) selected ->
  write_members dir selected files !! p = files !! p.
Proof.
  unfold write_members.
  induction selected as [| m selected IH]; intros files p Hall; [reflexivity |].
  apply Forall_cons in Hall as [Hm Hall]. cbn [foldl]. rewrite IH by exact Hall.
  destruct (m_content m); [now rewrite lookup_insert_ne | reflexivity].
Qed.

Lemma write_members_last dir before m c after files :
  m_content m = Some c ->
  Forall (fun m' => extracted_path_of dir m' <> extracted_path_of dir m) after ->
  write_members dir (before ++ m :: after) files !! extracted_path_of dir m = Some (Plain c).
Proof.
  intros Hc Hafter. unfold write_members. rewrite foldl_app. cbn [foldl]. rewrite Hc.
  fold (write_members dir after
          (<[extracted_path_of dir m := Plain c]>
             (foldl (fun files m0 =>
                       match m_content m0 with
                       | Some c0 => <[extracted_path_of dir m0 := Plain c0]> files
                       | None => files
                       end) files before))).
  rewrite write_members_other by exact Hafter. apply lookup_insert_eq.
Qed.

Lemma pdf_members_app ms1 ms2 : pdf_members (ms1 ++ ms2) = pdf_members ms1 ++ pdf_members ms2.
Proof. unfold pdf_members. apply List.filter_app. Qed.

Section WithLibs.
Variable U : Ucd.
Variable L : Lib.

(** *** The text files of a job *)

Lemma process_files_texts redacted_pdf_dir text_output_dir pdf_files : forall w,
  exists w' new,
    process_files U L redacted_pdf_dir text_output_dir pdf_files w = (Ok tt, w')
    /\ texts w' = texts w ++ new
    /\ (length new <= length pdf_files)%nat.
Proof.
  induction pdf_files as [| pdf_path rest IH]; intros w.
  - exists w, []. rewrite app_nil_r. repeat split. simpl. lia.
  - destruct (process_pdf_outcome U L redacted_pdf_dir text_output_dir pdf_path w)
      as (w1 & Hrun & Hout).
    destruct (IH w1) as (w2 & new & Hrest & Ht & Hlen).
    cbn [process_files]. rewrite (bind_run _ _ _ _ _ Hrun).
    destruct Hout as [Hsame | (v1 & v2 & v3 & c & text & _ & _ & _ & Hone)].
    + exists w2, new. rewrite Hrest, Ht, Hsame. repeat split. simpl. lia.
    + exists w2, (TextWritten
                    (os_path_join text_output_dir
                       (splitext_root (os_path_basename pdf_path) ++ py ".txt"))
                    (remove_undesired_patterns U (c :: text)) :: new).
      rewrite Hrest, Ht, Hone, <- app_assoc. repeat split. simpl. lia.
Qed.

Lemma workflow_texts zip_file_path output_base_dir w :
  exists w' new,
    process_zip_file_workflow U L zip_file_path output_base_dir w
    = (Ok (job_succeeds w zip_file_path), w')
    /\ texts w' = texts w ++ new
    /\ (forall members, fs w !! zip_file_path = Some (Zip members) ->
          (length new <= length (pdf_members members))%nat).
Proof.
  destruct (job_succeeds w zip_file_path) eqn:Ej.
  - unfold job_succeeds in Ej.
    destruct (fs w !! zip_file_path) as [[c | members] |] eqn:Ez; try discriminate.
    apply andb_true_iff in Ej as [Hne Hr].
    apply negb_true_iff, bool_decide_eq_false in Hne.
    destruct (extract_members_readable
                (os_path_join output_base_dir (py "extracted_pdfs")) members [] w Hr)
      as (w1 & Hx & Tx).
    destruct (process_files_texts
                (os_path_join output_base_dir (py "redacted_pdfs"))
                (os_path_join output_base_dir (py "text_output"))
                (List.map (extracted_path_of (os_path_join output_base_dir (py "extracted_pdfs")))
                          (pdf_members members)) w1)
      as (w2 & new & Hp & Tp & Hlen).
    exists (say w2 [Print InfoAllProcessed]), new. split; [| split].
    + unfold process_zip_file_workflow. erewrite try_ok; [reflexivity |].
      step ltac:(apply exists_run).
      rewrite bool_decide_eq_true_2 by (rewrite Ez; eauto). cbn [negb].
      step ltac:(apply open_zip_run; exact Ez).
      step ltac:(exact Hx). cbn [app].
      destruct (pdf_members members) as [| m ms]; [congruence |]. cbn [List.map] in *.
      step ltac:(exact Hp). step ltac:(apply print_run). apply ret_run.
    + rewrite texts_say, Tp, Tx. apply app_nil_r.
    + intros members' Hm. injection Hm as <-. now rewrite length_map in Hlen.
  - destruct (workflow_run U L zip_file_path output_base_dir w) as (w' & Hrun & Ht).
    rewrite Ej in Hrun. exists w', []. split; [exact Hrun |]. split.
    + rewrite app_nil_r. now apply Ht.
    + intros. simpl. lia.
Qed.

(** *** The program *)

Lemma lstrip_spaces ws s : forallb is_space ws = true -> lstrip (ws ++ s) = lstrip s.
Proof.
  induction ws as [| c ws IH]; intros H; [reflexivity |].
  simpl in H. apply andb_true_iff in H as [Hc H]. simpl. rewrite Hc. now apply IH.
Qed.

Lemma lstrip_blank ws : forallb is_space ws = true -> lstrip ws = [].
Proof.
  intros H. rewrite <- (app_nil_r ws). now rewrite lstrip_spaces.
Qed.

Lemma strip_blank ws : forallb is_space ws = true -> strip ws = [].
Proof. intros H. unfold strip, rstrip. now rewrite (lstrip_blank ws H). Qed.

Lemma main_exits tesseract cwd zip_line folder_line w :
  strip zip_line = [] \/ tesseract_available tesseract = false ->
  outcome (main U L tesseract cwd zip_line folder_line w) = Exit 1
  /\ world (main U L tesseract cwd zip_line folder_line w) = w.
Proof.
  intros H. unfold main. destruct (strip zip_line) as [| c z]; [split; reflexivity |].
  destruct H as [H | H]; [discriminate |].
  destruct (strip folder_line); destruct tesseract; try discriminate; split; reflexivity.
Qed.

Lemma main_runs version cwd zip_line folder_line w :
  strip zip_line <> [] ->
  let r := main U L (TesseractFound version) cwd zip_line folder_line w in
  let full_output_path := os_path_join cwd (output_folder folder_line) in
  outcome r = Done
  /\ world r = snd (process_zip_file_workflow U L (strip zip_line) full_output_path w)
  /\ (In (InfoCompleted full_output_path (output_folder folder_line)) (printed r)
      <-> job_succeeds w (strip zip_line) = true)
  /\ (In InfoFailed (printed r) <-> job_succeeds w (strip zip_line) = false).
Proof.
  intros Hz r full_output_path. unfold r, main, full_output_path, output_folder.
  destruct (strip zip_line) as [| c z] eqn:Ez; [congruence |].
  assert (Hw : forall out_dir,
             exists w', process_zip_file_workflow U L (c :: z) out_dir w
                        = (Ok (job_succeeds w (c :: z)), w')).
  { intros out_dir. destruct (workflow_run U L (c :: z) out_dir w) as (w' & Hrun & _). eauto. }
  destruct (strip folder_line) as [| f name];
    match goal with
    | |- context [process_zip_file_workflow U L (c :: z) ?d w] =>
        destruct (Hw d) as (w' & Hrun); rewrite Hrun
    end;
    destruct (job_succeeds w (c :: z)); cbn [outcome world printed snd];
    (split; [reflexivity |]); (split; [reflexivity |]); split; split; intros H;
    try reflexivity; try discriminate;
    try (apply in_or_app; right; left; reflexivity);
    repeat (apply in_app_or in H as [H | H]);
    repeat (destruct H as [H | H]; try discriminate); try contradiction.
Qed.

Lemma lstrip_head a s : is_space a = false -> lstrip (a :: s) = a :: s.
Proof. intros H. simpl. now rewrite H. Qed.

Lemma strip_padded ws1 core ws2 :
  forallb is_space ws1 = true -> forallb is_space ws2 = true -> trimmed core = true ->
  strip (ws1 ++ core ++ ws2) = core.
Proof.
  intros H1 H2 Hc. unfold trimmed in Hc.
  destruct core as [| a core']; [discriminate |].
  destruct (last (a :: core')) as [b |] eqn:El; [| discriminate].
  apply andb_true_iff in Hc as [Ha Hb]. apply negb_true_iff in Ha, Hb.
  unfold strip, rstrip. rewrite lstrip_spaces by exact H1.
  rewrite <- app_comm_cons, lstrip_head by exact Ha.
  rewrite app_comm_cons, rev_app_distr.
  rewrite lstrip_spaces.
  2: { rewrite List.forallb_forall in *. intros x Hx. apply H2. now apply in_rev. }
  apply last_Some in El as [l' El]. rewrite El, rev_app_distr. cbn [rev app].
  rewrite lstrip_head by exact Hb.
  change (b :: rev l') with (rev [b] ++ rev l'). now rewrite <- rev_app_distr, rev_involutive.
Qed.

End WithLibs.

Lemma short_line_no_token (U : Ucd) (l : str) :
  (length l < 8)%nat ->
  forall pre tok post, l = pre ++ tok ++ post -> ~ whole_word U pre tok post.
Proof.
  intros Hlen pre tok post -> (Htok & _).
  apply CleanerFacts.matches_classes_length in Htok. simpl in Htok.
  rewrite !length_app in Hlen. lia.
Qed.

(** X17. When every PDF member can be read, the extraction gives one
    path per PDF member, in archive order; each path then holds the
    content of the last member extracted to it, and no other path
    changes. *)
Theorem members_extracted_later_wins (dir : path) (members : list Member) (w : World) :
  forallb readable (pdf_members members) = true ->
  exists w',
    extract_members dir members [] w
    = (Ok (List.map (extracted_path_of dir) (pdf_members members)), w')
    /\ (forall before m c after,
          members = before ++ m :: after ->
          lower_endswith_pdf (m_name m) = true ->
          m_content m = Some c ->
          Forall (fun m' => extracted_path_of dir m' <> extracted_path_of dir m)
                 (pdf_members after) ->
          fs w' !! extracted_path_of dir m = Some (Plain c))
    /\ (forall p, Forall (fun m => extracted_path_of dir m <> p) (pdf_members members) ->
          fs w' !! p = fs w !! p).
Proof.
  intros Hall. destruct (extract_members_files dir members [] w Hall) as (evs & Hrun).
  eexists. split; [exact Hrun |]. cbn [fs]. unfold extracted_files. split.
  - intros before m c after -> Hpdf Hc Hafter.
    rewrite pdf_members_app. unfold pdf_members at 2. cbn [List.filter]. rewrite Hpdf.
    now apply write_members_last.
  - intros p Hp. now apply write_members_other.
Qed.

(** X18. A member is extracted under its base name alone: the folders
    of its name in the archive play no part, so members of different
    folders with one base name go to one path. *)
Theorem member_extracted_under_base_name (dir folder name : str) (c : option Content) :
  no_slash name = true ->
  extracted_path_of dir (mkMember (folder ++ [SLASH] ++ name) c) = os_path_join dir name.
Proof.
  intros H. unfold extracted_path_of. cbn [m_name]. now rewrite basename_of_member.
Qed.

(** X19. The job never raises, and it writes at most one text file for
    each PDF member of the archive; a job that fails writes none. *)
Theorem job_writes_at_most_one_text_per_pdf (U : Ucd) (L : Lib)
    (zip_file_path output_base_dir : path) (w : World) :
  exists w' new,
    process_zip_file_workflow U L zip_file_path output_base_dir w
    = (Ok (job_succeeds w zip_file_path), w')
    /\ texts w' = texts w ++ new
    /\ (job_succeeds w zip_file_path = false -> new = [])
    /\ (forall members, fs w !! zip_file_path = Some (Zip members) ->
          (length new <= length (pdf_members members))%nat).
Proof.
  destruct (workflow_texts U L zip_file_path output_base_dir w) as (w' & new & Hrun & Ht & Hlen).
  exists w', new. split; [exact Hrun |]. split; [exact Ht |]. split; [| exact Hlen].
  intros Hf. destruct (workflow_run U L zip_file_path output_base_dir w) as (w2 & Hrun2 & Ht2).
  rewrite Hrun in Hrun2. injection Hrun2 as <-. specialize (Ht2 Hf).
  rewrite Ht in Ht2. apply (f_equal (@length Event)) in Ht2. rewrite length_app in Ht2.
  destruct new; [reflexivity | simpl in Ht2; lia].
Qed.

(** X20. A non-empty extracted text of the file [stem.ext] is cleaned
    and written to [stem.txt] in the text directory, where [ext] is the
    part after the last dot. *)
Theorem text_written_under_stem (U : Ucd) (text_output_dir stem ext : str) (c : N)
    (text : str) (w : World) :
  some_non_dot stem = true ->
  no_dot ext = true ->
  let output_txt_file := os_path_join text_output_dir (stem ++ py ".txt") in
  let w' := snd (after_extraction U text_output_dir (stem ++ [DOT] ++ ext) (c :: text) w) in
  fs w' !! output_txt_file = Some (Plain (CText (remove_undesired_patterns U (c :: text))))
  /\ texts w' = texts w ++ [TextWritten output_txt_file (remove_undesired_patterns U (c :: text))].
Proof.
  intros Hs He output_txt_file w'. unfold w', output_txt_file.
  rewrite after_extraction_text. rewrite (splitext_root_stem stem ext Hs He).
  cbn [snd fs]. split; [apply lookup_insert_eq |].
  unfold texts. cbn [trace]. rewrite List.filter_app. reflexivity.
Qed.

(** X21. When the typed archive path is blank, or Tesseract is not
    available, the program exits with status 1 and no file has
    changed: the workflow is not started. *)
Theorem program_exits_before_any_work (U : Ucd) (L : Lib) (tesseract : TesseractCheck)
    (cwd : path) (zip_line folder_line : str) (w : World) :
  forallb is_space zip_line = true \/ tesseract_available tesseract = false ->
  outcome (main U L tesseract cwd zip_line folder_line w) = Exit 1
  /\ world (main U L tesseract cwd zip_line folder_line w) = w.
Proof.
  intros [H | H]; apply main_exits; [left; now apply strip_blank | now right].
Qed.

(** X22. With an archive path typed and Tesseract available, the
    program runs the workflow on the stripped path, with the output
    directory under the current directory ([processed_output] when no
    name was typed), and ends normally whatever the workflow returns:
    a failed job changes the last message, not the exit status. *)
Theorem program_ends_normally_whatever_the_job (U : Ucd) (L : Lib) (version : str)
    (cwd : path) (zip_line folder_line : str) (w : World) :
  strip zip_line <> [] ->
  let r := main U L (TesseractFound version) cwd zip_line folder_line w in
  let full_output_path := os_path_join cwd (output_folder folder_line) in
  outcome r = Done
  /\ world r = snd (process_zip_file_workflow U L (strip zip_line) full_output_path w)
  /\ (In (InfoCompleted full_output_path (output_folder folder_line)) (printed r)
      <-> job_succeeds w (strip zip_line) = true)
  /\ (In InfoFailed (printed r) <-> job_succeeds w (strip zip_line) = false).
Proof. apply main_runs. Qed.

(** X23. White space typed before or after the archive path or the
    folder name is ignored. *)
Theorem typed_white_space_ignored (U : Ucd) (L : Lib) (tesseract : TesseractCheck)
    (cwd : path) (ws1 ws2 ws3 ws4 zip_core folder_core : str) (w : World) :
  forallb is_space ws1 = true -> forallb is_space ws2 = true ->
  forallb is_space ws3 = true -> forallb is_space ws4 = true ->
  trimmed zip_core = true -> trimmed folder_core = true ->
  main U L tesseract cwd (ws1 ++ zip_core ++ ws2) (ws3 ++ folder_core ++ ws4) w
  = main U L tesseract cwd zip_core folder_core w.
Proof.
  intros H1 H2 H3 H4 Hz Hf.
  pose proof (strip_padded [] zip_core [] eq_refl eq_refl Hz) as Ez.
  pose proof (strip_padded [] folder_core [] eq_refl eq_refl Hf) as Ef.
  cbn [app] in Ez, Ef. rewrite app_nil_r in Ez, Ef.
  unfold main.
  rewrite (strip_padded ws1 zip_core ws2 H1 H2 Hz), Ez.
  rewrite (strip_padded ws3 folder_core ws4 H3 H4 Hf), Ef.
  reflexivity.
Qed.

End WorkflowMore.

(** ** The further properties at sample inputs *)

Module MoreSamples.
Import PostCleaner CleanerFacts CleanerMore RedactorMore FilesMore WorkflowMore.

Lemma marker_found_sample :
  marker_search ascii_ucd
    (py "(c) " ++ (py "COPYRIGHT " ++ [169]) ++ [] ++ py "1999" ++ py " Acme") = true.
Proof. apply marker_found_anywhere_any_case; reflexivity. Defined.

Lemma text_without_marker_sample :
  remove_undesired_patterns ascii_ucd plain_text
  = join_with [NL] (List.map (re_sub_uptodate ascii_ucd) (split_on NL plain_text)).
Proof.
  apply text_without_marker_keeps_every_line.
  change (split_on NL plain_text) with [py "Lipid"; py "levels"].
  repeat constructor.
Defined.

Lemma clean_text_sample : remove_undesired_patterns ascii_ucd plain_text = plain_text.
Proof.
  apply clean_text_unchanged;
    change (split_on NL plain_text) with [py "Lipid"; py "levels"].
  - repeat constructor.
  - repeat (constructor; [apply short_line_no_token; simpl; lia |]). constructor.
Defined.

Lemma document_shape_sample :
  exists out_doc,
    fs (snd (redact_pdf_content quiet_lib in_pdf out_pdf REDACTION_PATTERNS false one_page_world))
      !! out_pdf = Some (Plain (CPdf out_doc))
    /\ doc_metadata out_doc = doc_metadata one_page_doc
    /\ length (doc_pages out_doc) = length (doc_pages one_page_doc)
    /\ Forall2 (redacted_from quiet_lib (generated false REDACTION_PATTERNS))
               (doc_pages one_page_doc) (doc_pages out_doc).
Proof.
  apply (redaction_keeps_document_shape quiet_lib in_pdf out_pdf REDACTION_PATTERNS false
           one_page_world one_page_doc).
  - reflexivity.
  - reflexivity.
  - discriminate.
Defined.

Lemma reported_count_sample :
  exists out_doc before,
    fs (snd (redact_pdf_content quiet_lib in_pdf out_pdf REDACTION_PATTERNS false one_page_world))
      !! out_pdf = Some (Plain (CPdf out_doc))
    /\ trace (snd (redact_pdf_content quiet_lib in_pdf out_pdf REDACTION_PATTERNS false
                     one_page_world))
       = trace one_page_world ++ before
         ++ [Saved out_pdf;
             Print (InfoRedacted
                      (N.of_nat (added_annotations (doc_pages one_page_doc)
                                                   (doc_pages out_doc))))].
Proof.
  apply (reported_count_is_annotations_added quiet_lib in_pdf out_pdf REDACTION_PATTERNS false
           one_page_world one_page_doc).
  - reflexivity.
  - reflexivity.
  - discriminate.
  - discriminate.
Defined.

Lemma metadata_removal_sample :
  let w := world_with in_pdf (Plain (CPdf titled_doc)) in
  let w' := snd (remove_pdf_metadata quiet_lib in_pdf w) in
  fst (remove_pdf_metadata quiet_lib in_pdf w) = Ok true
  /\ fs w' !! in_pdf = Some (Plain (CPdf (mkDoc (doc_pages titled_doc) [])))
  /\ (temp_path_of in_pdf <> in_pdf -> fs w' !! temp_path_of in_pdf = None)
  /\ (forall p, p <> in_pdf -> p <> temp_path_of in_pdf -> fs w' !! p = fs w !! p).
Proof.
  apply (metadata_removal_effect quiet_lib in_pdf (world_with in_pdf (Plain (CPdf titled_doc)))
           titled_doc).
  - reflexivity.
  - reflexivity.
Defined.

Lemma metadata_removal_in_place_sample :
  temp_path_of upper_pdf = upper_pdf
  /\ remove_pdf_metadata quiet_lib upper_pdf (world_with upper_pdf (Plain (CPdf titled_doc)))
     = (Ok true,
        mkWorld (<[upper_pdf := Plain (CPdf (mkDoc (doc_pages titled_doc) []))]>
                   (fs (world_with upper_pdf (Plain (CPdf titled_doc)))))
                (trace (world_with upper_pdf (Plain (CPdf titled_doc)))
                 ++ [Print InfoMetadataRemoved])).
Proof.
  apply (metadata_removal_in_place quiet_lib upper_pdf
           (world_with upper_pdf (Plain (CPdf titled_doc))) titled_doc).
  - reflexivity.
  - reflexivity.
  - reflexivity.
Defined.

Lemma extracted_text_sample :
  exists evs,
    extract_text_from_pdf quiet_lib in_pdf one_page_world
    = (Ok (flat_map (page_text quiet_lib) (doc_pages one_page_doc)), say one_page_world evs)
    /\ ~ In (Print ErrExtract) evs.
Proof.
  apply (extracted_text_of_pages quiet_lib in_pdf one_page_world one_page_doc).
  - reflexivity.
  - reflexivity.
  - repeat constructor.
Defined.

Lemma unsupported_pages_sample :
  exists evs,
    extract_text_from_pdf five_channel_lib in_pdf one_page_world = (Ok [], say one_page_world evs)
    /\ ~ In (Print ErrExtract) evs
    /\ after_extraction ascii_ucd (py "out/text_output") (py "in.pdf") [] (say one_page_world evs)
       = (Ok tt, say (say one_page_world evs) [Print (ErrSkipExtract (py "in.pdf"))]).
Proof.
  apply (unsupported_pages_give_empty_text ascii_ucd five_channel_lib in_pdf one_page_world
           one_page_doc).
  - reflexivity.
  - reflexivity.
  - reflexivity.
Defined.

(** Of two members called [x.pdf] the second is the one kept. *)
Lemma twin_members_sample :
  exists w',
    extract_members (py "out/extracted_pdfs") twin_members [] empty_world
    = (Ok [py "out/extracted_pdfs/x.pdf"; py "out/extracted_pdfs/x.pdf"], w')
    /\ fs w' !! py "out/extracted_pdfs/x.pdf" = Some (Plain (CPdf empty_doc)).
Proof.
  destruct (members_extracted_later_wins (py "out/extracted_pdfs") twin_members empty_world
              eq_refl) as (w' & Hrun & Hlast & _).
  exists w'. split; [exact Hrun |].
  apply (Hlast [mkMember (py "a/x.pdf") (Some (CPdf one_page_doc))]
               (mkMember (py "b/x.pdf") (Some (CPdf empty_doc))) (CPdf empty_doc) []);
    [reflexivity | reflexivity | reflexivity | constructor].
Defined.

Lemma base_name_sample :
  extracted_path_of (py "out/extracted_pdfs")
    (mkMember (py "a" ++ [SLASH] ++ py "x.pdf") (Some (CPdf one_page_doc)))
  = os_path_join (py "out/extracted_pdfs") (py "x.pdf").
Proof. apply member_extracted_under_base_name. reflexivity. Defined.

Lemma text_written_sample :
  let output_txt_file := os_path_join (py "out/text_output") (py "x" ++ py ".txt") in
  let w' := snd (after_extraction ascii_ucd (py "out/text_output")
                   (py "x" ++ [DOT] ++ py "pdf") (65 :: py "bc") empty_world) in
  fs w' !! output_txt_file
  = Some (Plain (CText (remove_undesired_patterns ascii_ucd (65 :: py "bc"))))
  /\ texts w' = texts empty_world
                ++ [TextWritten output_txt_file
                      (remove_undesired_patterns ascii_ucd (65 :: py "bc"))].
Proof.
  apply (text_written_under_stem ascii_ucd (py "out/text_output") (py "x") (py "pdf")).
  - reflexivity.
  - reflexivity.
Defined.

Lemma program_exit_sample :
  outcome (main ascii_ucd quiet_lib (TesseractFound (py "5.3")) (py "/home/u") (py "   ")
             (py "docs") one_page_world) = Exit 1
  /\ world (main ascii_ucd quiet_lib (TesseractFound (py "5.3")) (py "/home/u") (py "   ")
              (py "docs") one_page_world) = one_page_world.
Proof. apply program_exits_before_any_work. left. reflexivity. Defined.

Lemma program_run_sample :
  let r := main ascii_ucd quiet_lib (TesseractFound (py "5.3")) (py "/home/u")
             (py " in.zip") (py "") (world_with zip_path locked_zip) in
  let full_output_path := os_path_join (py "/home/u") (output_folder (py "")) in
  outcome r = Done
  /\ world r = snd (process_zip_file_workflow ascii_ucd quiet_lib (strip (py " in.zip"))
                      full_output_path (world_with zip_path locked_zip))
  /\ (In (InfoCompleted full_output_path (output_folder (py ""))) (printed r)
      <-> job_succeeds (world_with zip_path locked_zip) (strip (py " in.zip")) = true)
  /\ (In InfoFailed (printed r)
      <-> job_succeeds (world_with zip_path locked_zip) (strip (py " in.zip")) = false).
Proof.
  apply (program_ends_normally_whatever_the_job ascii_ucd quiet_lib (py "5.3") (py "/home/u")
           (py " in.zip") (py "") (world_with zip_path locked_zip)).
  vm_compute. discriminate.
Defined.

Lemma typed_white_space_sample :
  main ascii_ucd quiet_lib TesseractNotFound (py "/home/u")
       (py "  " ++ py "in.zip" ++ py " ") ([] ++ py "docs" ++ [9]) empty_world
  = main ascii_ucd quiet_lib TesseractNotFound (py "/home/u") (py "in.zip") (py "docs")
         empty_world.
Proof. apply typed_white_space_ignored; reflexivity. Defined.

End MoreSamples.
